(** * SegmentedControl: a shallow embedding and its properties

    The component of [Box.story.tsx] (the [SegmentedControl] factory) is a
    React function component.  Its render body, its two effects and its
    input handler are embedded as pure functions over an explicit record of
    hook state; the host runtime (commit of refs, effect scheduling, timers,
    the owner that receives [onChange]) is reduced to the few steps the
    component relies on.  JavaScript numbers are IEEE 754 binary64 values,
    embedded as Rocq's primitive floats, so that NaN and the infinities
    behave as they do in the source. *)

From Stdlib Require Import Floats.
From stdpp Require Import gmap strings list.

(** ** JavaScript values *)

Module JS.

Definition number := float.

(** [ToBoolean] on a number: [0], [-0] and [NaN] are falsy. *)
Definition truthy (x : number) : bool :=
  negb (PrimFloat.is_zero x || PrimFloat.is_nan x).

(** [a || b] on numbers. *)
Definition or (a b : number) : number := if truthy a then a else b.

(** [ToBoolean] on an optional boolean ([undefined] is falsy). *)
Definition flag (b : option bool) : bool := default false b.

(** [a || b] on optional booleans: [a] when it is truthy, else [b]. *)
Definition or_flag (a b : option bool) : option bool :=
  if flag a then a else b.

(** [a ?? b]: [null] and [undefined] are both [None]. *)
Definition nullish {A} (a b : option A) : option A :=
  match a with
  | Some x => Some x
  | None => b
  end.

(** Property key of a value that is a string or [null]
    ([String(null)] is the key of [null in obj] and of [obj[null]]). *)
Definition to_key (v : option string) : string := default "null" v.

Definition is_finite (x : number) : bool := PrimFloat.is_finite x.

End JS.

(** ** Data model *)

(** [React.ReactNode], as far as labels need it. *)
Inductive ReactNode : Type :=
  | NodeText (s : string)
  | NodeElement (tag : string) (child : ReactNode)
  | NodeFragment (first rest : ReactNode).

(** [interface SegmentedControlItem]. *)
Module Item.
Record t : Type := {
  value : string;
  label : ReactNode;
  disabled : option bool;
}.
End Item.
Abbreviation SegmentedControlItem := Item.t.

(** An entry of [data]: [string | SegmentedControlItem]. *)
Inductive DataEntry : Type :=
  | EString (s : string)
  | EItem (item : SegmentedControlItem).

Inductive Orientation : Type := vertical | horizontal.

Inductive Direction : Type := ltr | rtl.

(** The environment marker returned by [getEnv()]. *)
Inductive Env : Type := env_default | env_test.

(** [const WRAPPER_PADDING = 4]. *)
Definition WRAPPER_PADDING : JS.number := 4%float.

(** The delay given to [useTimeout], in milliseconds. *)
Definition INITIALIZATION_DELAY : nat := 20.

(** What the effect reads from a label element: [offsetWidth],
    [clientWidth], [clientHeight], the width of [getBoundingClientRect()],
    and [offsetLeft]/[offsetTop] of [parentElement]. *)
Record HTMLLabelElement : Type := {
  offsetWidth : JS.number;
  clientWidth : JS.number;
  clientHeight : JS.number;
  rect_width : JS.number;
  parent_offsetLeft : JS.number;
  parent_offsetTop : JS.number;
}.

(** The paddings that [getRootPadding(root, WRAPPER_PADDING)] returns.  The
    helper lives in [./get-root-padding], outside the embedded file; what it
    returns for the root node is taken as a measurement of that node. *)
Record RootPadding : Type := {
  pad_top : JS.number;
  pad_left : JS.number;
  pad_right : JS.number;
}.

Record HTMLDivElement : Type := {
  rootPadding : RootPadding;
}.

(** Modelled from the spec: [getRootPadding] "adjusts for container padding";
    the paddings it reads from the root node are a field of the node (the
    fallback stands in where the helper cannot read a padding, which the
    measurement already holds). *)
Definition getRootPadding (root : HTMLDivElement) (fallback : JS.number) : RootPadding :=
  rootPadding root.

(** The part of the resize observer's rectangle that the effect reads. *)
Record ContainerRect : Type := {
  rect_w : JS.number;
  rect_h : JS.number;
}.

(** [activePosition]: [{ width, height, translate: [x, y] }]. *)
Record Position : Type := {
  width : JS.number;
  height : JS.number;
  translate : JS.number * JS.number;
}.

Definition hidden : Position :=
  {| width := 0%float; height := 0%float; translate := (0%float, 0%float) |}.

(** The owner's [onChange] function is known by its identity only; what the
    component does with it is recorded as a trace of calls. *)
Definition Callback := nat.

Record Call : Type := {
  callee : Callback;
  argument : string;
}.

(** [interface SegmentedControlProps].  The Styles API props ([classNames],
    [className], [style], [styles], [unstyled], [vars], [mod] and the rest
    props) only reach [useStyles] and the root element and are left out. *)
Module Props.
Record t : Type := {
  data : list DataEntry;
  value : option string;
  defaultValue : option string;
  onChange : option Callback;
  disabled : option bool;
  name : option string;
  fullWidth : option bool;
  color : option string;
  size : option string;
  radius : option string;
  transitionDuration : option JS.number;
  transitionTimingFunction : option string;
  orientation : option Orientation;
  readOnly : option bool;
  autoContrast : option bool;
  withItemsBorders : option bool;
  variant : option string;
}.
End Props.
Abbreviation SegmentedControlProps := Props.t.

(** [useProps('SegmentedControl', defaultProps, _props)] with
    [defaultProps = { withItemsBorders: true }]. *)
Definition useProps (_props : SegmentedControlProps) : SegmentedControlProps :=
  {| Props.data := Props.data _props;
     Props.value := Props.value _props;
     Props.defaultValue := Props.defaultValue _props;
     Props.onChange := Props.onChange _props;
     Props.disabled := Props.disabled _props;
     Props.name := Props.name _props;
     Props.fullWidth := Props.fullWidth _props;
     Props.color := Props.color _props;
     Props.size := Props.size _props;
     Props.radius := Props.radius _props;
     Props.transitionDuration := Props.transitionDuration _props;
     Props.transitionTimingFunction := Props.transitionTimingFunction _props;
     Props.orientation := Props.orientation _props;
     Props.readOnly := Props.readOnly _props;
     Props.autoContrast := Props.autoContrast _props;
     Props.withItemsBorders := JS.nullish (Props.withItemsBorders _props) (Some true);
     Props.variant := Props.variant _props |}.

(** What the component reads from its surroundings: [useDirection], [getEnv],
    [theme.focusRing] and the identifier [useId] generates when [name] is
    not given. *)
Record Ambient : Type := {
  dir : Direction;
  getEnv : Env;
  focusRing : string;
  generatedId : string;
}.

(** ** Normalization of [data] and the fallback value *)

(** [typeof item === 'string' ? { label: item, value: item } : item]. *)
Definition normalize (item : DataEntry) : SegmentedControlItem :=
  match item with
  | EString s => {| Item.value := s; Item.label := NodeText s; Item.disabled := None |}
  | EItem i => i
  end.

(** [const _data = data.map(...)]. *)
Definition _data (data : list DataEntry) : list SegmentedControlItem :=
  map normalize data.

(** [(data[0] as any)?.value]: a string has no [value] property. *)
Definition raw_value (data : list DataEntry) : option string :=
  match head data with
  | Some (EItem i) => Some (Item.value i)
  | Some (EString _) => None
  | None => None
  end.

(** [(item) => !item.disabled]. *)
Definition enabled (item : SegmentedControlItem) : bool :=
  negb (JS.flag (Item.disabled item)).

(** [_data.find((item) => !item.disabled)]. *)
Definition first_enabled (data : list DataEntry) : option SegmentedControlItem :=
  find enabled (_data data).

(** [_data.find((item) => !item.disabled)?.value ?? (data[0] as any)?.value ?? null];
    [data] is an array by its type, so the [Array.isArray] branch is the one taken. *)
Definition finalValue (data : list DataEntry) : option string :=
  JS.nullish (JS.nullish (Item.value <$> first_enabled data) (raw_value data)) None.

(** ** Controlled and uncontrolled value *)

(** Modelled from the spec: the internal state of [useUncontrolled] (a hook
    of [@mantine/hooks], not in the embedded file) on the first render.  An
    uncontrolled value is "optionally seeded by a default"; without one the
    fallback [finalValue] is the seed. *)
Definition useUncontrolled_initial (defaultValue finalValue : option string)
    : option string :=
  match defaultValue with
  | Some d => Some d
  | None => finalValue
  end.

(** One call of the owner's callback, when there is one ([onChange] is an
    optional prop). *)
Definition notify (onChange : option Callback) (val : string) : list Call :=
  match onChange with
  | Some f => [ {| callee := f; argument := val |} ]
  | None => []
  end.

(** Modelled from the spec: [useUncontrolled], the merge utility.  The
    displayed value is "either owned externally (controlled) or internally
    mirrored (uncontrolled)", exactly one of the two being authoritative:
    with [value] supplied the result is that value and a change goes to the
    external callback only; without it the result is the internal state, which
    a change overwrites before the callback is told.  The hook returns the
    merged value and the change handler; the handler yields the new internal
    state and the calls it made. *)
Definition useUncontrolled (value : option string) (onChange : option Callback)
    (stored : option string)
    : option string * (string -> option string * list Call) :=
  match value with
  | Some v => (Some v, fun val => (stored, notify onChange val))
  | None => (stored, fun val => (Some val, notify onChange val))
  end.

(** ** Hook state *)

(** What the component keeps between renders: the internal value of
    [useUncontrolled], [activePosition], [refs.current], the node behind
    [rootRef] and [observerRef] (one node, through [useMergedRef]),
    [initialized], the rectangle of [useResizeObserver], and the time left
    on the timer of [useTimeout]. *)
Record Hooks : Type := {
  uncontrolledValue : option string;
  activePosition : Position;
  refs : gmap string (option HTMLLabelElement);
  rootRef : option HTMLDivElement;
  initialized : bool;
  containerRect : ContainerRect;
  timeout : option nat;
}.

Definition setActivePosition (p : Position) (h : Hooks) : Hooks :=
  {| uncontrolledValue := uncontrolledValue h;
     activePosition := p;
     refs := refs h;
     rootRef := rootRef h;
     initialized := initialized h;
     containerRect := containerRect h;
     timeout := timeout h |}.

Definition setInitialized (b : bool) (h : Hooks) : Hooks :=
  {| uncontrolledValue := uncontrolledValue h;
     activePosition := activePosition h;
     refs := refs h;
     rootRef := rootRef h;
     initialized := b;
     containerRect := containerRect h;
     timeout := timeout h |}.

Definition setUncontrolledValue (v : option string) (h : Hooks) : Hooks :=
  {| uncontrolledValue := v;
     activePosition := activePosition h;
     refs := refs h;
     rootRef := rootRef h;
     initialized := initialized h;
     containerRect := containerRect h;
     timeout := timeout h |}.

Definition setContainerRect (r : ContainerRect) (h : Hooks) : Hooks :=
  {| uncontrolledValue := uncontrolledValue h;
     activePosition := activePosition h;
     refs := refs h;
     rootRef := rootRef h;
     initialized := initialized h;
     containerRect := r;
     timeout := timeout h |}.

Definition setTimeout (t : option nat) (h : Hooks) : Hooks :=
  {| uncontrolledValue := uncontrolledValue h;
     activePosition := activePosition h;
     refs := refs h;
     rootRef := rootRef h;
     initialized := initialized h;
     containerRect := containerRect h;
     timeout := t |}.

Definition setRefs (r : gmap string (option HTMLLabelElement))
    (root : option HTMLDivElement) (h : Hooks) : Hooks :=
  {| uncontrolledValue := uncontrolledValue h;
     activePosition := activePosition h;
     refs := r;
     rootRef := root;
     initialized := initialized h;
     containerRect := containerRect h;
     timeout := timeout h |}.

(** [_value], the merged value of this render. *)
Definition _value (props : SegmentedControlProps) (h : Hooks) : option string :=
  fst (useUncontrolled (Props.value props) (Props.onChange props) (uncontrolledValue h)).

(** [handleValueChange] of this render. *)
Definition handleValueChange (props : SegmentedControlProps) (h : Hooks)
    : string -> option string * list Call :=
  snd (useUncontrolled (Props.value props) (Props.onChange props) (uncontrolledValue h)).

(** ** The geometry effect *)

Section Geometry.
Local Open Scope float_scope.

(** The body of [if (element) { ... }]: the position that is passed to
    [setActivePosition]. *)
Definition measure (d : Direction) (rootPadding : RootPadding)
    (containerRect : ContainerRect) (element : HTMLLabelElement) : Position :=
  let scaledValue := offsetWidth element / rect_width element in
  let width := JS.or (clientWidth element * scaledValue) 0 in
  let height := JS.or (clientHeight element * scaledValue) 0 in
  let offsetRight :=
    rect_w containerRect - parent_offsetLeft element
    + (match d with rtl => pad_left rootPadding | ltr => pad_right rootPadding end)
    - width in
  let offsetLeft :=
    parent_offsetLeft element
    - (match d with rtl => pad_right rootPadding | ltr => pad_left rootPadding end) in
  {| width := width;
     height := height;
     translate :=
       (match d with rtl => offsetRight * -1 | ltr => offsetLeft end,
        parent_offsetTop element - pad_top rootPadding) |}.

End Geometry.

(** [refs.current] starts as the object literal [{}] (line 229), so besides
    the entries the ref callbacks assign it has the properties every object
    inherits from [Object.prototype]; these are their names.  (Assigning
    under ["__proto__"] replaces the prototype of an object instead of adding
    an entry; the table below keeps an entry of that name like any other, so
    a [data] value of ["__proto__"] is beyond what it describes.) *)
Definition object_prototype_keys : list string :=
  ["constructor"; "__defineGetter__"; "__defineSetter__"; "hasOwnProperty";
   "__lookupGetter__"; "__lookupSetter__"; "isPrototypeOf";
   "propertyIsEnumerable"; "toString"; "valueOf"; "__proto__"; "toLocaleString"].

(** What a key finds in [refs.current]: an entry of its own (a label node or
    [null]), a property inherited from [Object.prototype] (a function, or the
    prototype itself for ["__proto__"]: truthy, and no element), or nothing.
    An own entry hides an inherited property of the same name. *)
Inductive Slot : Type :=
  | Own (entry : option HTMLLabelElement)
  | Inherited
  | Absent.

Definition slot (table : gmap string (option HTMLLabelElement)) (key : string) : Slot :=
  match table !! key with
  | Some entry => Own entry
  | None => if bool_decide (key ∈ object_prototype_keys) then Inherited else Absent
  end.

(** How an effect ends: it returns, leaving a hook state, or it throws (a
    [TypeError]) with the hook state as it was. *)
Inductive Outcome : Type :=
  | Done (h : Hooks)
  | Throws (h : Hooks).

Definition state_of (o : Outcome) : Hooks :=
  match o with
  | Done h => h
  | Throws h => h
  end.

Definition thrown (o : Outcome) : bool :=
  match o with
  | Done _ => false
  | Throws _ => true
  end.

(** The effect with dependencies [[_value, containerRect, dir]].
    [_value in refs.current] is true for an own key, whatever it holds, and
    for an inherited one; [observerRef.current] is the root node or [null].
    [refs.current[_value]] is then the own entry or the inherited property:
    a node is measured, [null] takes the [else] branch, and an inherited
    property passes [if (element)] and fails at
    [element.getBoundingClientRect()], which is not a function. *)
Definition geometry_effect (ctx : Ambient) (props : SegmentedControlProps)
    (h : Hooks) : Outcome :=
  let key := JS.to_key (_value props h) in
  match slot (refs h) key, rootRef h with
  | Own entry, Some root =>
      match entry with
      | Some element =>
          let rootPadding := getRootPadding root WRAPPER_PADDING in
          Done (setActivePosition
                  (measure (dir ctx) rootPadding (containerRect h) element) h)
      | None => Done (setActivePosition hidden h)
      end
  | Inherited, Some root => Throws h
  | _, _ => Done h
  end.

(** The callback given to [useTimeout]. *)
Definition timeout_callback (ctx : Ambient) (h : Hooks) : Hooks :=
  match getEnv ctx with
  | env_test => h
  | env_default => setInitialized true h
  end.

(** ** The render function *)

(** The [<input type="radio">] of a control. *)
Record InputElement : Type := {
  input_disabled : option bool;
  input_name : string;
  input_value : string;
  input_id : string;
  input_checked : bool;
  input_focus_ring : string;
}.

(** The [label] of a control, with its [mod] entries. *)
Record LabelElement : Type := {
  label_active : bool;
  label_disabled : option bool;
  label_read_only : option bool;
  label_htmlFor : string;
  label_children : ReactNode;
}.

Record ControlElement : Type := {
  control_key : string;
  control_active : bool;
  control_orientation : option Orientation;
  control_input : InputElement;
  control_label : LabelElement;
}.

(** The indicator [span] with the three [--sc-indicator-*] variables; the
    numbers are kept as numbers instead of their [px] strings. *)
Record IndicatorElement : Type := {
  indicator_width : JS.number;
  indicator_height : JS.number;
  indicator_transform : JS.number * JS.number;
}.

(** The root [Box].  Its first child is [false] (nothing is rendered for it)
    or the indicator: [None] or [Some]. *)
Record RootElement : Type := {
  root_variant : option string;
  root_size : option string;
  mod_full_width : option bool;
  mod_orientation : option Orientation;
  mod_initialization : bool;
  mod_with_items_borders : option bool;
  root_role : string;
  root_indicator : option IndicatorElement;
  root_controls : list ControlElement;
}.

(** [useId(name)]: the given name, or a generated identifier. *)
Definition useId (ctx : Ambient) (name : option string) : string :=
  default (generatedId ctx) name.

(** [_value === item.value]. *)
Definition is_value (v : option string) (item : SegmentedControlItem) : bool :=
  bool_decide (v = Some (Item.value item)).

(** One element of [controls]. *)
Definition control (ctx : Ambient) (props : SegmentedControlProps) (h : Hooks)
    (item : SegmentedControlItem) : ControlElement :=
  let uuid := useId ctx (Props.name props) in
  let off := JS.or_flag (Props.disabled props) (Item.disabled item) in
  let id := uuid +:+ "-" +:+ Item.value item in
  {| control_key := Item.value item;
     control_active := is_value (_value props h) item;
     control_orientation := Props.orientation props;
     control_input :=
       {| input_disabled := off;
          input_name := uuid;
          input_value := Item.value item;
          input_id := id;
          input_checked := is_value (_value props h) item;
          input_focus_ring := focusRing ctx |};
     control_label :=
       {| label_active := is_value (_value props h) item && negb (JS.flag off);
          label_disabled := off;
          label_read_only := Props.readOnly props;
          label_htmlFor := id;
          label_children := Item.label item |} |}.

(** [typeof _value === 'string' && <Box component="span" ... />]. *)
Definition indicator (v : option string) (p : Position) : option IndicatorElement :=
  match v with
  | Some _ =>
      Some {| indicator_width := width p;
              indicator_height := height p;
              indicator_transform := translate p |}
  | None => None
  end.

(** The component: [None] is [return null]. *)
Definition SegmentedControl (ctx : Ambient) (_props : SegmentedControlProps)
    (h : Hooks) : option RootElement :=
  let props := useProps _props in
  let controls := map (control ctx props h) (_data (Props.data props)) in
  if bool_decide (length (Props.data props) = 0) then None
  else
    Some {| root_variant := Props.variant props;
            root_size := Props.size props;
            mod_full_width := Props.fullWidth props;
            mod_orientation := Props.orientation props;
            mod_initialization := negb (initialized h);
            mod_with_items_borders := Props.withItemsBorders props;
            root_role := "radiogroup";
            root_indicator := indicator (_value props h) (activePosition h);
            root_controls := controls |}.

(** The handler of a control's input:
    [() => !readOnly && handleValueChange(item.value)]. *)
Definition input_onChange (props : SegmentedControlProps) (h : Hooks)
    (item : SegmentedControlItem) : Hooks * list Call :=
  if JS.flag (Props.readOnly props) then (h, [])
  else
    let '(stored, calls) := handleValueChange props h (Item.value item) in
    (setUncontrolledValue stored h, calls).

(** ** The host runtime *)

(** What the browser holds for a mounted instance: the label node of each
    control, the root node, and the rectangle the resize observer holds
    before its first report. *)
Record Browser : Type := {
  label_node : string -> HTMLLabelElement;
  root_node : HTMLDivElement;
  initial_rect : ContainerRect;
}.

(** The ref callbacks at commit: [refs.current[item.value] = node] for every
    rendered control, and [null] under the key of a control that is no longer
    rendered; the merged root ref holds the root node while it is rendered. *)
Definition attach (b : Browser) (items : list SegmentedControlItem)
    (old : gmap string (option HTMLLabelElement))
    : gmap string (option HTMLLabelElement) :=
  foldl (fun m item => <[Item.value item := Some (label_node b (Item.value item))]> m)
        ((fun _ => None) <$> old) items.

Definition commit (b : Browser) (props : SegmentedControlProps) (h : Hooks) : Hooks :=
  match Props.data props with
  | [] => setRefs ((fun _ => None) <$> refs h) None h
  | _ => setRefs (attach b (_data (Props.data props)) (refs h)) (Some (root_node b)) h
  end.

(** An instance: its current props, its hook state, the calls it has made
    to the owner, and whether it is still mounted.  An error that an effect
    throws is caught by nothing in the component: the host removes the tree,
    and the instance keeps the props and the hook state it had then. *)
Record Instance : Type := {
  props : SegmentedControlProps;
  hooks : Hooks;
  calls : list Call;
  mounted : bool;
}.

(** The instance after a render whose effects ended in [o]. *)
Definition settle (p : SegmentedControlProps) (cs : list Call) (o : Outcome) : Instance :=
  {| props := p; hooks := state_of o; calls := cs; mounted := negb (thrown o) |}.

(** Modelled from the spec: the timer of [useTimeout] ([@mantine/hooks], not
    in the embedded file), started on mount by [autoInvoke]: a deferred flag,
    so the callback is due once, [delay] milliseconds later. *)
Definition useTimeout_start (delay : nat) (h : Hooks) : Hooks :=
  setTimeout (Some delay) h.

(** Modelled from the spec: [ms] milliseconds pass; a pending timer whose
    delay is over calls the callback and is gone, another one keeps what is
    left of its delay. *)
Definition useTimeout_elapse (callback : Hooks -> Hooks) (ms : nat) (h : Hooks) : Hooks :=
  match timeout h with
  | Some remaining =>
      if bool_decide (remaining <= ms) then callback (setTimeout None h)
      else setTimeout (Some (remaining - ms)) h
  | None => h
  end.

(** The first render: initial hook state, commit, the geometry effect, and
    the timer started by [autoInvoke]. *)
Definition mount (ctx : Ambient) (b : Browser) (_props : SegmentedControlProps)
    : Instance :=
  let p := useProps _props in
  let h0 :=
    {| uncontrolledValue :=
         useUncontrolled_initial (Props.defaultValue p) (finalValue (Props.data p));
       activePosition := hidden;
       refs := ∅;
       rootRef := None;
       initialized := false;
       containerRect := initial_rect b;
       timeout := None |} in
  let o := geometry_effect ctx p (commit b p h0) in
  {| props := p;
     hooks := useTimeout_start INITIALIZATION_DELAY (state_of o);
     calls := [];
     mounted := negb (thrown o) |}.

(** A later render: commit, then the geometry effect when one of its
    dependencies changed ([rerun] is that test; [dir] is fixed in a run). *)
Definition update (ctx : Ambient) (b : Browser) (rerun : bool)
    (p : SegmentedControlProps) (h : Hooks) : Outcome :=
  let h1 := commit b p h in
  if rerun then geometry_effect ctx p h1 else Done h1.

Definition value_changed (p p' : SegmentedControlProps) (h h' : Hooks) : bool :=
  negb (bool_decide (_value p h = _value p' h')).

(** What can happen to an instance: a change event on the input of
    the [i]-th control, new props from the owner, a report of the resize
    observer, and time passing.  Which change events the browser delivers
    (none to a disabled input) is its own business: the handler does not test
    the flag.  A handler that changes no state causes no render; the render
    after the timer's callback changes no hook state. *)
Inductive Event : Type :=
  | InputChange (i : nat)
  | Rerender (_props : SegmentedControlProps)
  | Resize (r : ContainerRect)
  | Elapse (ms : nat).

(** What an event does to a mounted instance. *)
Definition react (ctx : Ambient) (b : Browser) (ev : Event) (s : Instance) : Instance :=
  let p := props s in
  let h := hooks s in
  match ev with
  | InputChange i =>
      match _data (Props.data p) !! i with
      | Some item =>
          let '(h', cs) := input_onChange p h item in
          settle p (calls s ++ cs)
            (if value_changed p p h h' then update ctx b true p h' else Done h')
      | None => s
      end
  | Rerender _props =>
      let p' := useProps _props in
      settle p' (calls s) (update ctx b (value_changed p p' h h) p' h)
  | Resize r =>
      settle p (calls s) (update ctx b true p (setContainerRect r h))
  | Elapse ms =>
      settle p (calls s) (Done (useTimeout_elapse (timeout_callback ctx) ms h))
  end.

(** An instance that was removed receives no event. *)
Definition step (ctx : Ambient) (b : Browser) (ev : Event) (s : Instance) : Instance :=
  if mounted s then react ctx b ev s else s.

Definition run (ctx : Ambient) (b : Browser) (evs : list Event) (s : Instance) : Instance :=
  foldl (fun s ev => step ctx b ev s) s evs.


(** Milliseconds that pass in a list of events. *)
Definition elapsed (evs : list Event) : nat :=
  foldr (fun ev n => match ev with Elapse ms => ms + n | _ => n end) 0 evs.

Definition is_rerender (ev : Event) : bool :=
  match ev with
  | Rerender _ => true
  | _ => false
  end.

(** Whether the output holds an indicator element. *)
Definition has_indicator (out : option RootElement) : bool :=
  match out with
  | Some root => bool_decide (is_Some (root_indicator root))
  | None => false
  end.

(** The merged value of an instance, and the one right after mount. *)
Definition selected (s : Instance) : option string := _value (props s) (hooks s).

Definition initial_selection (ctx : Ambient) (b : Browser)
    (_props : SegmentedControlProps) : option string :=
  selected (mount ctx b _props).

(** [x_rtl == -x_ltr] and the weaker reading of a mirrored sign: a positive
    offset becomes a negative one and conversely. *)
Definition negated (x_ltr x_rtl : JS.number) : bool :=
  PrimFloat.eqb x_rtl (PrimFloat.opp x_ltr).

Definition opposite_sign (x_ltr x_rtl : JS.number) : bool :=
  (implb (PrimFloat.ltb 0 x_ltr) (PrimFloat.ltb x_rtl 0))
  && (implb (PrimFloat.ltb x_ltr 0) (PrimFloat.ltb 0 x_rtl)).

(** The timer and the flag after [e] milliseconds of a mounted instance:
    before the delay is over the timer is pending and the flag is unset;
    afterwards the timer is gone, and the flag is set unless the environment
    is the test one. *)
Definition timer_state (ctx : Ambient) (e : nat) (h : Hooks) : Prop :=
  timeout h = (if bool_decide (INITIALIZATION_DELAY <= e) then None
               else Some (INITIALIZATION_DELAY - e))
  /\ initialized h = match getEnv ctx with
                     | env_default => bool_decide (INITIALIZATION_DELAY <= e)
                     | env_test => false
                     end.

(** ** Sample instances *)

Module Sample.
Local Open Scope float_scope.

Definition ambient (d : Direction) (e : Env) : Ambient :=
  {| dir := d; getEnv := e; focusRing := "auto"; generatedId := "mantine-r1" |}.

(** A label of 100 by 28 pixels, unscaled, whose control starts [left]
    pixels from the left edge of the root. *)
Definition segment (left : JS.number) : HTMLLabelElement :=
  {| offsetWidth := 100; clientWidth := 100; clientHeight := 28;
     rect_width := 100; parent_offsetLeft := left; parent_offsetTop := 4 |}.

(** The same label under an ancestor with [transform: scale(0)]: the layout
    sizes stay, the bounding rectangle collapses. *)
Definition collapsed : HTMLLabelElement :=
  {| offsetWidth := 100; clientWidth := 100; clientHeight := 28;
     rect_width := 0; parent_offsetLeft := 4; parent_offsetTop := 4 |}.

(** A label that is not laid out ([display: none]): every size is zero. *)
Definition unrendered : HTMLLabelElement :=
  {| offsetWidth := 0; clientWidth := 0; clientHeight := 0;
     rect_width := 0; parent_offsetLeft := 0; parent_offsetTop := 0 |}.

Definition padding : RootPadding :=
  {| pad_top := 4; pad_left := 4; pad_right := 4 |}.

Definition unobserved : ContainerRect := {| rect_w := 0; rect_h := 0 |}.

Definition observed : ContainerRect := {| rect_w := 300; rect_h := 28 |}.

(** Three segments ["a"], ["b"], ["c"] side by side. *)
Definition browser : Browser :=
  {| label_node := fun v =>
       if bool_decide (v = "a") then segment 4
       else if bool_decide (v = "b") then segment 104
       else segment 204;
     root_node := {| rootPadding := padding |};
     initial_rect := unobserved |}.

Definition spy : Callback := 7%nat.

Definition make (data : list DataEntry) (value defaultValue : option string)
    (readOnly : option bool) : SegmentedControlProps :=
  {| Props.data := data; Props.value := value; Props.defaultValue := defaultValue;
     Props.onChange := Some spy; Props.disabled := None; Props.name := None;
     Props.fullWidth := None; Props.color := None; Props.size := None;
     Props.radius := None; Props.transitionDuration := None;
     Props.transitionTimingFunction := None; Props.orientation := None;
     Props.readOnly := readOnly; Props.autoContrast := None;
     Props.withItemsBorders := None; Props.variant := None |}.

Definition abc : list DataEntry := [EString "a"; EString "b"; EString "c"].

Definition off (v : string) : DataEntry :=
  EItem {| Item.value := v; Item.label := NodeText v; Item.disabled := Some true |}.

Definition on (v : string) : DataEntry :=
  EItem {| Item.value := v; Item.label := NodeText v; Item.disabled := Some false |}.

End Sample.

(** ** Style variables *)

(** [ToBoolean] on an optional string: [undefined] and the empty string are
    falsy. *)
Definition string_truthy (s : option string) : bool :=
  match s with
  | Some s => negb (bool_decide (s = ""))
  | None => false
  end.

(** The seven [--sc-*] variables of the root; [None] is [undefined]. *)
Record RootVars : Type := {
  sc_radius : option string;
  sc_color : option string;
  sc_shadow : option string;
  sc_transition_duration : option string;
  sc_transition_timing_function : option string;
  sc_padding : option string;
  sc_font_size : option string;
}.

Section StyleVariables.

(** The theme and the helpers of [../../core] that the resolver calls are
    outside the embedded file; they are parameters here, with the types of
    their uses.  [number_to_string] is the conversion of the template
    literal. *)
Variable Theme : Type.
Variable getRadius : string -> string.
Variable getThemeColor : string -> Theme -> string.
Variable getSize : option string -> string -> option string.
Variable getFontSize : option string -> option string.
Variable getContrastColor : string -> Theme -> option bool -> string.
Variable number_to_string : JS.number -> string.

(** [varsResolver]: the [root] entry of what [createVarsResolver] is given. *)
Definition varsResolver (theme : Theme) (p : SegmentedControlProps) : RootVars :=
  {| sc_radius :=
       match Props.radius p with
       | None => None
       | Some radius => Some (getRadius radius)
       end;
     sc_color :=
       match Props.color p with
       | Some color =>
           if string_truthy (Some color) then Some (getThemeColor color theme) else None
       | None => None
       end;
     sc_shadow :=
       if string_truthy (Props.color p) then None else Some "var(--mantine-shadow-xs)";
     sc_transition_duration :=
       match Props.transitionDuration p with
       | None => None
       | Some transitionDuration => Some (number_to_string transitionDuration +:+ "ms")
       end;
     sc_transition_timing_function := Props.transitionTimingFunction p;
     sc_padding := getSize (Props.size p) "sc-padding";
     sc_font_size := getFontSize (Props.size p) |}.

(** [--sc-label-color] of a label:
    [color !== undefined ? getContrastColor({ color, theme, autoContrast }) : undefined]. *)
Definition label_color (theme : Theme) (p : SegmentedControlProps) : option string :=
  match Props.color p with
  | Some color => Some (getContrastColor color theme (Props.autoContrast p))
  | None => None
  end.

End StyleVariables.

(** The same props with another [data]. *)
Definition with_data (data : list DataEntry) (p : SegmentedControlProps)
    : SegmentedControlProps :=
  {| Props.data := data;
     Props.value := Props.value p;
     Props.defaultValue := Props.defaultValue p;
     Props.onChange := Props.onChange p;
     Props.disabled := Props.disabled p;
     Props.name := Props.name p;
     Props.fullWidth := Props.fullWidth p;
     Props.color := Props.color p;
     Props.size := Props.size p;
     Props.radius := Props.radius p;
     Props.transitionDuration := Props.transitionDuration p;
     Props.transitionTimingFunction := Props.transitionTimingFunction p;
     Props.orientation := Props.orientation p;
     Props.readOnly := Props.readOnly p;
     Props.autoContrast := Props.autoContrast p;
     Props.withItemsBorders := Props.withItemsBorders p;
     Props.variant := Props.variant p |}.

(** A [data] list written out as records: each string replaced by the record
    it is shorthand for. *)
Definition as_records (data : list DataEntry) : list DataEntry :=
  EItem <$> _data data.

(** The controls of an output whose input is checked. *)
Definition checked (controls : list ControlElement) : list ControlElement :=
  List.filter (fun c => input_checked (control_input c)) controls.

(** The values of the entries of [data], in order. *)
Definition values (data : list DataEntry) : list string :=
  Item.value <$> _data data.

(** * Properties *)

(** ** Frame lemmas: what each step leaves alone *)

Lemma commit_frame b p h :
  uncontrolledValue (commit b p h) = uncontrolledValue h
  /\ activePosition (commit b p h) = activePosition h
  /\ initialized (commit b p h) = initialized h
  /\ timeout (commit b p h) = timeout h
  /\ containerRect (commit b p h) = containerRect h.
Proof. unfold commit. destruct (Props.data p); simpl; repeat split; reflexivity. Qed.

Lemma geometry_effect_frame ctx p h :
  uncontrolledValue (state_of (geometry_effect ctx p h)) = uncontrolledValue h
  /\ refs (state_of (geometry_effect ctx p h)) = refs h
  /\ rootRef (state_of (geometry_effect ctx p h)) = rootRef h
  /\ initialized (state_of (geometry_effect ctx p h)) = initialized h
  /\ timeout (state_of (geometry_effect ctx p h)) = timeout h
  /\ containerRect (state_of (geometry_effect ctx p h)) = containerRect h.
Proof.
  unfold geometry_effect.
  destruct (slot (refs h) (JS.to_key (_value p h))) as [[element|]| |] eqn:Hkey;
    destruct (rootRef h) eqn:Hroot; simpl; rewrite ?Hroot; repeat split; reflexivity.
Qed.

Lemma update_frame ctx b rerun p h :
  uncontrolledValue (state_of (update ctx b rerun p h)) = uncontrolledValue h
  /\ initialized (state_of (update ctx b rerun p h)) = initialized h
  /\ timeout (state_of (update ctx b rerun p h)) = timeout h.
Proof.
  unfold update.
  destruct (commit_frame b p h) as (Hu & _ & Hi & Ht & _).
  destruct rerun; [|auto].
  destruct (geometry_effect_frame ctx p (commit b p h)) as (Hu' & _ & _ & Hi' & Ht' & _).
  rewrite Hu', Hi', Ht'. auto.
Qed.

Lemma update_stored ctx b rerun p h :
  uncontrolledValue (state_of (update ctx b rerun p h)) = uncontrolledValue h.
Proof. apply update_frame. Qed.

(** A removed instance stays as it is. *)
Lemma step_unmounted ctx b ev s : mounted s = false -> step ctx b ev s = s.
Proof. unfold step. intros ->. reflexivity. Qed.

Lemma run_unmounted ctx b evs s : mounted s = false -> run ctx b evs s = s.
Proof.
  intros Hs. induction evs as [|ev evs IH]; [reflexivity|].
  unfold run in *. simpl. rewrite (step_unmounted ctx b ev s Hs). exact IH.
Qed.

Lemma step_mounted ctx b ev s : mounted s = true -> step ctx b ev s = react ctx b ev s.
Proof. unfold step. intros ->. reflexivity. Qed.

Lemma _value_stored p h h' :
  uncontrolledValue h' = uncontrolledValue h -> _value p h' = _value p h.
Proof. unfold _value. intros ->. reflexivity. Qed.

(** The merged value right after mount. *)
Lemma initial_selection_unfold ctx b p :
  initial_selection ctx b p =
    match Props.value p with
    | Some v => Some v
    | None => useUncontrolled_initial (Props.defaultValue p) (finalValue (Props.data p))
    end.
Proof.
  unfold initial_selection, selected, mount, useTimeout_start, _value. simpl.
  destruct (geometry_effect_frame ctx (useProps p)
              (commit b (useProps p)
                 {| uncontrolledValue :=
                      useUncontrolled_initial (Props.defaultValue p) (finalValue (Props.data p));
                    activePosition := hidden; refs := ∅; rootRef := None;
                    initialized := false; containerRect := initial_rect b;
                    timeout := None |})) as (Hu & _).
  simpl in Hu. rewrite Hu.
  destruct (commit_frame b (useProps p)
              {| uncontrolledValue :=
                   useUncontrolled_initial (Props.defaultValue p) (finalValue (Props.data p));
                 activePosition := hidden; refs := ∅; rootRef := None;
                 initialized := false; containerRect := initial_rect b;
                 timeout := None |}) as (Hc & _).
  rewrite Hc. simpl. unfold useUncontrolled. destruct (Props.value p); reflexivity.
Qed.

(** ** [Array.prototype.find] returns the first match *)

Lemma find_first {A} (f : A -> bool) (l : list A) (i : nat) (x : A) :
  l !! i = Some x ->
  f x = true ->
  (forall j y, j < i -> l !! j = Some y -> f y = false) ->
  find f l = Some x.
Proof.
  revert i. induction l as [|a l IH]; intros i Hi Hx Hbefore.
  - discriminate.
  - destruct i as [|i]; simpl in *.
    + injection Hi as ->. rewrite Hx. reflexivity.
    + rewrite (Hbefore 0 a) by (lia || reflexivity).
      apply (IH i); [assumption | assumption |].
      intros j y Hj Hy. apply (Hbefore (S j) y); [lia | exact Hy].
Qed.

Lemma find_all_false {A} (f : A -> bool) (l : list A) :
  (forall x, x ∈ l -> f x = false) -> find f l = None.
Proof.
  induction l as [|a l IH]; intros H; simpl; [reflexivity|].
  rewrite (H a) by apply list_elem_of_here.
  apply IH. intros x Hx. apply H. apply list_elem_of_further. exact Hx.
Qed.

(** A string entry has no [disabled] flag, so it is never skipped. *)
Lemma enabled_string s : enabled (normalize (EString s)) = true.
Proof. reflexivity. Qed.

(** When every entry is disabled the fallback is the first entry's value. *)
Lemma finalValue_all_disabled data :
  (forall item, item ∈ _data data -> enabled item = false) ->
  finalValue data = Item.value <$> head (_data data).
Proof.
  intros Hall. unfold finalValue, first_enabled.
  rewrite (find_all_false _ _ Hall). simpl.
  destruct data as [|[s|item] rest]; simpl; try reflexivity.
  specialize (Hall (normalize (EString s))).
  rewrite enabled_string in Hall.
  discriminate Hall. apply list_elem_of_here.
Qed.

(** ** Normalization *)

(** C7: the normalization step maps every entry of [data] to a uniform
    record, position by position: a plain string [s] becomes
    [{ label: s, value: s }], so that its label is its value, and an entry
    that is a record already is passed through unchanged. *)
Theorem normalize_uniform (data : list DataEntry) :
  length (_data data) = length data
  /\ (forall i, _data data !! i = normalize <$> data !! i)
  /\ (forall s, normalize (EString s)
                = {| Item.value := s; Item.label := NodeText s; Item.disabled := None |})
  /\ (forall s, Item.label (normalize (EString s))
                = NodeText (Item.value (normalize (EString s))))
  /\ (forall item, normalize (EItem item) = item).
Proof.
  unfold _data. split; [apply length_map|].
  split; [intros i; apply list_lookup_fmap|].
  repeat split; reflexivity.
Qed.

(** ** Empty data *)

(** C2: for every props record whose [data] is the empty list the render
    function returns [null], whatever the other props, the hook state and
    the surroundings are. *)
Theorem empty_data_renders_nothing ctx (p : SegmentedControlProps) (h : Hooks) :
  Props.data p = [] -> SegmentedControl ctx p h = None.
Proof.
  intros Hdata. unfold SegmentedControl. simpl. rewrite Hdata. reflexivity.
Qed.

Lemma empty_data_renders_nothing_witness :
  SegmentedControl (Sample.ambient rtl env_test)
    (Sample.make [] (Some "a") (Some "b") (Some true))
    (hooks (mount (Sample.ambient rtl env_test) Sample.browser
              (Sample.make [] (Some "a") (Some "b") (Some true))))
  = None.
Proof. apply empty_data_renders_nothing. reflexivity. Defined.

(** The converse: with an entry in [data] there is an output. *)
Lemma nonempty_data_renders ctx (p : SegmentedControlProps) (h : Hooks) :
  Props.data p <> [] -> is_Some (SegmentedControl ctx p h).
Proof.
  intros Hdata. unfold SegmentedControl. simpl.
  destruct (Props.data p); [congruence|]. simpl. eauto.
Qed.

(** ** Initial selection *)

(** C1, as amended: if neither [value] nor [defaultValue] is supplied, then
    for every [data] list that holds an entry whose [disabled] flag is not
    set, the initially selected value is the [value] field of the first such
    entry of the normalized list; when every entry is disabled, it is the
    [value] of the first entry (and [null] for an empty list). *)
Theorem initial_selection_first_enabled ctx b (p : SegmentedControlProps) :
  Props.value p = None ->
  Props.defaultValue p = None ->
  (forall i item,
      _data (Props.data p) !! i = Some item ->
      enabled item = true ->
      (forall j other, j < i -> _data (Props.data p) !! j = Some other ->
                       enabled other = false) ->
      initial_selection ctx b p = Some (Item.value item))
  /\ ((forall item, item ∈ _data (Props.data p) -> enabled item = false) ->
      initial_selection ctx b p = Item.value <$> head (_data (Props.data p))).
Proof.
  intros Hv Hd. rewrite initial_selection_unfold, Hv, Hd. simpl. split.
  - intros i item Hi Hen Hbefore.
    unfold finalValue, first_enabled.
    rewrite (find_first enabled _ i item Hi Hen Hbefore). reflexivity.
  - apply finalValue_all_disabled.
Qed.

Lemma initial_selection_first_enabled_witness :
  initial_selection (Sample.ambient ltr env_default) Sample.browser
    (Sample.make [Sample.off "a"; Sample.on "b"; EString "c"] None None None)
  = Some "b".
Proof.
  refine (proj1 (initial_selection_first_enabled
                   (Sample.ambient ltr env_default) Sample.browser
                   (Sample.make [Sample.off "a"; Sample.on "b"; EString "c"] None None None)
                   eq_refl eq_refl)
                1 (normalize (Sample.on "b")) eq_refl eq_refl _).
  intros j other Hj Hother.
  destruct j as [|j]; [|lia].
  injection Hother as <-. reflexivity.
Defined.

(** C1, as stated, fails on a list whose entries are all disabled: the list
    is not empty and neither [value] nor [defaultValue] is given, no entry has
    its [disabled] flag unset, and yet a value is selected, the one of the
    first (disabled) entry. *)
Lemma initial_selection_all_disabled :
  let p := Sample.make [Sample.off "a"; Sample.off "b"] None None None in
  Props.data p <> []
  /\ Props.value p = None
  /\ Props.defaultValue p = None
  /\ (forall item, item ∈ _data (Props.data p) -> enabled item = false)
  /\ initial_selection (Sample.ambient ltr env_default) Sample.browser p = Some "a".
Proof.
  simpl.
  split; [discriminate|].
  split; [reflexivity|].
  split; [reflexivity|].
  split; [|vm_compute; reflexivity].
  intros item Hitem.
  apply list_elem_of_In in Hitem. simpl in Hitem.
  destruct Hitem as [<-|[<-|[]]]; reflexivity.
Qed.

(** ** The indicator element *)

(** The indicator and the merged value of one render. *)
Lemma indicator_of_value ctx (p : SegmentedControlProps) (h : Hooks) :
  (has_indicator (SegmentedControl ctx p h) = true -> exists v, _value p h = Some v)
  /\ (_value p h = None -> has_indicator (SegmentedControl ctx p h) = false)
  /\ (Props.data p <> [] -> (exists v, _value p h = Some v) ->
      has_indicator (SegmentedControl ctx p h) = true).
Proof.
  unfold SegmentedControl. simpl.
  change (_value (useProps p) h) with (_value p h).
  destruct (Props.data p) as [|entry rest]; simpl.
  - repeat split; try discriminate. intros Hne; congruence.
  - destruct (_value p h) as [v|]; simpl.
    + repeat split; eauto. discriminate.
    + repeat split; try discriminate; try reflexivity.
      intros _ [v Hv]. discriminate.
Qed.

(** The fallback value is [null] for an empty list only: a string entry is
    never disabled, and a list of disabled records yields the first one. *)
Lemma finalValue_null_iff (data : list DataEntry) :
  finalValue data = None <-> data = [].
Proof.
  split; [|intros ->; reflexivity].
  destruct data as [|entry rest]; [reflexivity|].
  unfold finalValue, first_enabled, raw_value. simpl.
  destruct entry as [s|item]; simpl.
  - discriminate.
  - destruct (enabled item); simpl; [discriminate|].
    destruct (find enabled (_data rest)); simpl; discriminate.
Qed.

(** C9, as amended: the indicator element is rendered only when the merged
    value is a string; when the merged value is [null] no indicator element
    is in the output, and a string value with a non-empty [data] does give
    one.  With neither [value] nor [defaultValue] the merged value after
    mount is [null] for an empty [data] only: every non-empty [data] renders
    the indicator, and [data] whose entries are all disabled does so with the
    value of its first entry selected. *)
Theorem indicator_only_for_string ctx (p : SegmentedControlProps) (h : Hooks) :
  (has_indicator (SegmentedControl ctx p h) = true -> exists v, _value p h = Some v)
  /\ (_value p h = None -> has_indicator (SegmentedControl ctx p h) = false)
  /\ (Props.data p <> [] -> (exists v, _value p h = Some v) ->
      has_indicator (SegmentedControl ctx p h) = true)
  /\ (forall b,
        Props.value p = None -> Props.defaultValue p = None -> Props.data p <> [] ->
        (exists v, initial_selection ctx b p = Some v)
        /\ has_indicator (SegmentedControl ctx p (hooks (mount ctx b p))) = true
        /\ ((forall item, item ∈ _data (Props.data p) -> enabled item = false) ->
            initial_selection ctx b p = Item.value <$> head (_data (Props.data p)))).
Proof.
  destruct (indicator_of_value ctx p h) as (Honly & Hnull & Hstring).
  split; [exact Honly|]. split; [exact Hnull|]. split; [exact Hstring|].
  intros b Hvalue Hdefault Hdata.
  assert (Hsel : exists v, initial_selection ctx b p = Some v).
  { destruct (initial_selection ctx b p) as [v|] eqn:Hv; [eauto|].
    rewrite initial_selection_unfold, Hvalue, Hdefault in Hv. simpl in Hv.
    apply finalValue_null_iff in Hv. contradiction. }
  split; [exact Hsel|]. split.
  - apply (indicator_of_value ctx p (hooks (mount ctx b p))); [exact Hdata|exact Hsel].
  - intros Hall. rewrite initial_selection_unfold, Hvalue, Hdefault. simpl.
    apply finalValue_all_disabled. exact Hall.
Qed.

(** C9, as stated, fails in its example: with [data] whose entries are all
    disabled and neither [value] nor [defaultValue], the merged value is not
    [null] but the value of the first entry, and the indicator is rendered. *)
Lemma all_disabled_renders_indicator :
  let ctx := Sample.ambient ltr env_default in
  let p := Sample.make [Sample.off "a"; Sample.off "b"] None None None in
  let s := mount ctx Sample.browser p in
  Props.value p = None
  /\ Props.defaultValue p = None
  /\ (forall item, item ∈ _data (Props.data p) -> enabled item = false)
  /\ selected s = Some "a"
  /\ has_indicator (SegmentedControl ctx (props s) (hooks s)) = true.
Proof.
  simpl.
  split; [reflexivity|]. split; [reflexivity|].
  split; [|split; vm_compute; reflexivity].
  intros item Hitem.
  apply list_elem_of_In in Hitem. simpl in Hitem.
  destruct Hitem as [<-|[<-|[]]]; reflexivity.
Qed.

(** ** The refs table after a commit *)

Lemma attach_lookup b (items : list SegmentedControlItem)
    (old : gmap string (option HTMLLabelElement)) (k : string) :
  attach b items old !! k =
    if bool_decide (k ∈ Item.value <$> items)
    then Some (Some (label_node b k))
    else (fun _ => None) <$> old !! k.
Proof.
  unfold attach. rewrite <- lookup_fmap.
  generalize ((fun _ : option HTMLLabelElement => @None HTMLLabelElement) <$> old).
  induction items as [|a items IH]; intros m; simpl.
  - reflexivity.
  - rewrite IH.
    change (list_fmap SegmentedControlItem string Item.value items)
      with (Item.value <$> items).
    destruct (decide (k = Item.value a)) as [->|Hne].
    + rewrite lookup_insert_eq.
      rewrite (bool_decide_eq_true_2 (Item.value a ∈ Item.value a :: _))
        by apply list_elem_of_here.
      destruct (bool_decide _); reflexivity.
    + rewrite lookup_insert_ne by congruence.
      apply (f_equal (fun c : bool => if c then _ else _)).
      apply bool_decide_ext. rewrite elem_of_cons. tauto.
Qed.

Lemma commit_refs b (p : SegmentedControlProps) (h : Hooks) (k : string) :
  Props.data p <> [] ->
  refs (commit b p h) !! k =
    (if bool_decide (k ∈ Item.value <$> _data (Props.data p))
     then Some (Some (label_node b k))
     else (fun _ => None) <$> refs h !! k)
  /\ rootRef (commit b p h) = Some (root_node b).
Proof.
  intros Hne. unfold commit.
  destruct (Props.data p) as [|entry rest] eqn:Hdata; [congruence|].
  simpl. split; [|reflexivity]. apply attach_lookup.
Qed.

(** ** Geometry *)

(** [x || 0] is never [NaN]. *)
Lemma or_zero_not_nan (x : JS.number) : PrimFloat.is_nan (JS.or x 0%float) = false.
Proof.
  unfold JS.or, JS.truthy.
  destruct (PrimFloat.is_zero x); simpl; [reflexivity|].
  destruct (PrimFloat.is_nan x) eqn:Hnan; simpl; [reflexivity|exact Hnan].
Qed.

(** The stored width and height are never [NaN]. *)
Lemma measure_not_nan d pad rect element :
  PrimFloat.is_nan (width (measure d pad rect element)) = false
  /\ PrimFloat.is_nan (height (measure d pad rect element)) = false.
Proof. unfold measure. simpl. split; apply or_zero_not_nan. Qed.

(** A label that is not laid out: [0 / 0] is [NaN], and the guard stores 0. *)
Lemma measure_unrendered d :
  width (measure d Sample.padding Sample.observed Sample.unrendered) = 0%float
  /\ height (measure d Sample.padding Sample.observed Sample.unrendered) = 0%float.
Proof. destruct d; vm_compute; split; reflexivity. Qed.

(** C10 fails on the code: with a bounding rectangle of width 0 under a
    layout width that is not 0 (an ancestor scaled to 0), the scale factor is
    [Infinity], [Infinity || 0] is [Infinity], and the infinite width and
    height are what the effect stores, whatever the direction, the padding
    and the container are. *)
Theorem measure_collapsed_not_finite d pad rect :
  rect_width Sample.collapsed = 0%float
  /\ width (measure d pad rect Sample.collapsed) = infinity
  /\ height (measure d pad rect Sample.collapsed) = infinity
  /\ JS.is_finite (width (measure d pad rect Sample.collapsed)) = false
  /\ JS.is_finite (height (measure d pad rect Sample.collapsed)) = false.
Proof. unfold measure. simpl. repeat split; vm_compute; reflexivity. Qed.

(** The same through the effect: a mounted instance whose selected label is
    collapsed gets an infinite width and height in [activePosition]. *)
Example collapsed_label_in_state :
  let ctx := Sample.ambient ltr env_default in
  let b := {| label_node := fun _ => Sample.collapsed;
              root_node := root_node Sample.browser;
              initial_rect := Sample.observed |} in
  let s := mount ctx b (Sample.make Sample.abc None None None) in
  width (activePosition (hooks s)) = infinity
  /\ height (activePosition (hooks s)) = infinity.
Proof. vm_compute. split; reflexivity. Qed.

(** C6, as amended: for every fixed set of measurements the indicator has
    the same width, the same height and the same vertical offset under
    ['rtl'] as under ['ltr']; the horizontal offset is the distance from the
    left edge under ['ltr'] and the negated distance from the right edge,
    [(container width - offsetLeft + padding.left - width) * -1], under
    ['rtl'].  The same holds of the geometry that the effect stores: nothing
    but the horizontal offset depends on the direction, nor does whether the
    effect throws. *)
Theorem measure_direction pad rect element :
  let l := measure ltr pad rect element in
  let r := measure rtl pad rect element in
  width r = width l
  /\ height r = height l
  /\ snd (translate r) = snd (translate l)
  /\ fst (translate l) = (parent_offsetLeft element - pad_left pad)%float
  /\ fst (translate r)
     = ((rect_w rect - parent_offsetLeft element + pad_left pad - width l) * -1)%float
  /\ (forall ctx ctx' p h,
        let g := activePosition (state_of (geometry_effect ctx p h)) in
        let g' := activePosition (state_of (geometry_effect ctx' p h)) in
        width g' = width g /\ height g' = height g
        /\ snd (translate g') = snd (translate g)
        /\ thrown (geometry_effect ctx' p h) = thrown (geometry_effect ctx p h)).
Proof.
  simpl. repeat split; try reflexivity.
  all: unfold geometry_effect.
  all: destruct (slot (refs h) (JS.to_key (_value p h))) as [[label|]| |];
    destruct (rootRef h); try reflexivity.
  all: destruct (dir ctx), (dir ctx'); reflexivity.
Qed.

(** C6, as stated, fails: the ['rtl'] offset is not the ['ltr'] offset with
    its sign mirrored.  For the first of three segments in an observed
    container of 300 pixels the offsets are 0 and -200; before the observer's
    first report (a rectangle of zeros) the second segment has the offsets
    100 and 200, both positive. *)
Lemma measure_direction_not_mirrored :
  let l1 := measure ltr Sample.padding Sample.observed (Sample.segment 4%float) in
  let r1 := measure rtl Sample.padding Sample.observed (Sample.segment 4%float) in
  let l2 := measure ltr Sample.padding Sample.unobserved (Sample.segment 104%float) in
  let r2 := measure rtl Sample.padding Sample.unobserved (Sample.segment 104%float) in
  fst (translate l1) = 0%float
  /\ fst (translate r1) = (-200)%float
  /\ negated (fst (translate l1)) (fst (translate r1)) = false
  /\ fst (translate l2) = 100%float
  /\ fst (translate r2) = 200%float
  /\ negated (fst (translate l2)) (fst (translate r2)) = false
  /\ opposite_sign (fst (translate l2)) (fst (translate r2)) = false.
Proof. vm_compute. repeat split; reflexivity. Qed.

(** ** A selected value without a control *)



(** After the commit of a render in which no control has the selected value,
    the entry of that value in the refs table is [null] if there was an entry
    before, and there is still none otherwise. *)
Lemma commit_unmatched b (p : SegmentedControlProps) (h : Hooks) :
  Props.data p <> [] ->
  (forall item, item ∈ _data (Props.data p) ->
                Item.value item <> JS.to_key (_value p h)) ->
  refs (commit b p h) !! JS.to_key (_value p (commit b p h))
  = (fun _ => None) <$> refs h !! JS.to_key (_value p h).
Proof.
  intros Hne Hall.
  assert (Hv : _value p (commit b p h) = _value p h).
  { apply _value_stored. apply commit_frame. }
  destruct (commit_refs b p h (JS.to_key (_value p h)) Hne) as [Hrefs _].
  rewrite bool_decide_eq_false_2 in Hrefs.
  - rewrite Hv. exact Hrefs.
  - intros Hin. apply list_elem_of_fmap in Hin as (item & Hkey & Hitem).
    apply (Hall item Hitem). congruence.
Qed.

(** The branch that does hide the indicator: when the selected value is the
    value of no rendered control but had a control in an earlier render (its
    entry in the refs table is still there, now [null]) and the root is
    rendered, the geometry recomputation sets width 0, height 0 and
    translate (0, 0). *)
Lemma geometry_effect_unmatched ctx b (p : SegmentedControlProps) (h : Hooks) :
  Props.data p <> [] ->
  (forall item, item ∈ _data (Props.data p) ->
                Item.value item <> JS.to_key (_value p h)) ->
  is_Some (refs h !! JS.to_key (_value p h)) ->
  geometry_effect ctx p (commit b p h) = Done (setActivePosition hidden (commit b p h)).
Proof.
  intros Hne Hall [entry Hentry].
  pose proof (commit_unmatched b p h Hne Hall) as Hrefs.
  destruct (commit_refs b p h (JS.to_key (_value p h)) Hne) as [_ Hroot].
  rewrite Hentry in Hrefs. simpl in Hrefs.
  unfold geometry_effect, slot. rewrite Hrefs, Hroot. reflexivity.
Qed.

Example removed_control_hides_indicator :
  let ctx := Sample.ambient ltr env_default in
  let h := hooks (mount ctx Sample.browser (Sample.make Sample.abc None None None)) in
  let p := Sample.make [EString "a"; EString "b"] (Some "c") None None in
  activePosition (state_of (geometry_effect ctx p (commit Sample.browser p h))) = hidden.
Proof. vm_compute. reflexivity. Qed.

(** C3 fails on the code: the owner sets [value] to ["zzz"] after ["b"] was
    selected; no control has the value ["zzz"], the key was never in the refs
    table (and is no inherited one), so the guard of the effect is false, the
    recomputation sets nothing, and the geometry of ["b"] stays in place
    under an indicator that is still rendered, where the claim has
    width 0, height 0 and translate (0, 0). *)
Theorem stale_geometry_after_unknown_value :
  let ctx := Sample.ambient ltr env_default in
  let s := run ctx Sample.browser
             [Resize Sample.observed; InputChange 1;
              Rerender (Sample.make Sample.abc (Some "zzz") None None)]
             (mount ctx Sample.browser (Sample.make Sample.abc None None None)) in
  selected s = Some "zzz"
  /\ mounted s = true
  /\ Item.value <$> _data (Props.data (props s)) = ["a"; "b"; "c"]
  /\ slot (refs (hooks s)) "zzz" = Absent
  /\ geometry_effect ctx (props s) (hooks s) = Done (hooks s)
  /\ activePosition (hooks s)
     = {| width := 100%float; height := 28%float; translate := (100%float, 0%float) |}
  /\ has_indicator (SegmentedControl ctx (props s) (hooks s)) = true.
Proof.
  vm_compute. repeat split; reflexivity.
Qed.

(** The other way in which a value without a control escapes the [else]
    branch: a value that names a property of [Object.prototype] passes the
    guard and makes the effect throw. *)
Example inherited_key_throws :
  let ctx := Sample.ambient ltr env_default in
  let s := step ctx Sample.browser
             (Rerender (Sample.make Sample.abc (Some "constructor") None None))
             (mount ctx Sample.browser (Sample.make Sample.abc None None None)) in
  selected s = Some "constructor" /\ mounted s = false.
Proof. vm_compute. split; reflexivity. Qed.

(** ** Interaction *)

#[local] Arguments update : simpl never.
#[local] Arguments useTimeout_elapse : simpl never.

Lemma useTimeout_elapse_stored ctx ms h :
  uncontrolledValue (useTimeout_elapse (timeout_callback ctx) ms h) = uncontrolledValue h.
Proof.
  unfold useTimeout_elapse, timeout_callback.
  destruct (timeout h) as [remaining|]; [|reflexivity].
  destruct (bool_decide (remaining <= ms)); [|reflexivity].
  destruct (getEnv ctx); reflexivity.
Qed.

Lemma value_unchanged p h : value_changed p p h h = false.
Proof. unfold value_changed. rewrite bool_decide_eq_true_2; reflexivity. Qed.

Lemma value_unchanged_stored p h h' :
  _value p h' = _value p h -> value_changed p p h h' = false.
Proof. unfold value_changed. intros ->. rewrite bool_decide_eq_true_2; reflexivity. Qed.

(** With [readOnly] the handler of every input does nothing. *)
Lemma input_onChange_readOnly (p : SegmentedControlProps) h item :
  JS.flag (Props.readOnly p) = true -> input_onChange p h item = (h, []).
Proof. unfold input_onChange. intros ->. reflexivity. Qed.

(** One event that is not a render with new props, under [readOnly]. *)
Lemma step_readOnly ctx b ev s :
  JS.flag (Props.readOnly (props s)) = true ->
  is_rerender ev = false ->
  props (step ctx b ev s) = props s
  /\ calls (step ctx b ev s) = calls s
  /\ uncontrolledValue (hooks (step ctx b ev s)) = uncontrolledValue (hooks s).
Proof.
  intros Hro Hev. unfold step. destruct (mounted s); [|auto].
  destruct ev as [i|_props|r|ms]; unfold react, settle; simpl in *.
  - destruct (_data (Props.data (props s)) !! i) as [item|]; [|auto].
    rewrite (input_onChange_readOnly _ _ _ Hro), value_unchanged. simpl.
    rewrite app_nil_r. auto.
  - discriminate.
  - repeat split. rewrite update_stored. reflexivity.
  - repeat split. apply useTimeout_elapse_stored.
Qed.

(** C4: with [readOnly] set, whatever sequence of change events reaches the
    inputs (resize reports and time may pass in between), [onChange] is never
    called and the selected value stays what it was; the handler of every
    input is a no-op. *)
Theorem readOnly_never_changes ctx b (evs : list Event) (s : Instance) :
  JS.flag (Props.readOnly (props s)) = true ->
  Forall (fun ev => is_rerender ev = false) evs ->
  (forall h item, input_onChange (props s) h item = (h, []))
  /\ calls (run ctx b evs s) = calls s
  /\ selected (run ctx b evs s) = selected s
  /\ uncontrolledValue (hooks (run ctx b evs s)) = uncontrolledValue (hooks s).
Proof.
  intros Hro Hevs. split.
  { intros h item. apply input_onChange_readOnly. exact Hro. }
  assert (Hrun : props (run ctx b evs s) = props s
                 /\ calls (run ctx b evs s) = calls s
                 /\ uncontrolledValue (hooks (run ctx b evs s))
                    = uncontrolledValue (hooks s)).
  { revert s Hro. induction Hevs as [|ev evs Hev _ IH]; intros s Hro; [auto|].
    destruct (step_readOnly ctx b ev s Hro Hev) as (Hp & Hc & Hu).
    unfold run in *. simpl.
    destruct (IH (step ctx b ev s)) as (Hp' & Hc' & Hu'); [congruence|].
    rewrite Hp', Hc', Hu'. auto. }
  destruct Hrun as (Hp & Hc & Hu).
  repeat split; try assumption.
  unfold selected. rewrite Hp. apply _value_stored. exact Hu.
Qed.

Lemma readOnly_never_changes_witness :
  let ctx := Sample.ambient ltr env_default in
  let s := mount ctx Sample.browser (Sample.make Sample.abc None None (Some true)) in
  let evs := [InputChange 1; Resize Sample.observed; InputChange 2; Elapse 30; InputChange 0] in
  calls (run ctx Sample.browser evs s) = [] /\ selected (run ctx Sample.browser evs s) = Some "a".
Proof.
  intros ctx s evs.
  destruct (readOnly_never_changes ctx Sample.browser evs s) as (_ & Hc & Hs & _).
  - reflexivity.
  - repeat constructor.
  - split; [exact Hc | exact Hs].
Defined.

(** A render with new props makes no call, and the merged value is the new
    [value] prop when there is one. *)
Lemma rerender_silent ctx b _props s :
  calls (step ctx b (Rerender _props) s) = calls s
  /\ uncontrolledValue (hooks (step ctx b (Rerender _props) s)) = uncontrolledValue (hooks s)
  /\ (mounted s = true ->
      forall v, Props.value _props = Some v ->
                selected (step ctx b (Rerender _props) s) = Some v).
Proof.
  unfold step. destruct (mounted s); [|repeat split; discriminate].
  unfold react, settle. simpl. split; [reflexivity|]. split; [apply update_stored|].
  intros _ v Hv. unfold selected, _value, useUncontrolled. simpl. rewrite Hv. reflexivity.
Qed.

(** The effect does not throw on a key the table has an entry for. *)
Lemma geometry_effect_own_key ctx (p : SegmentedControlProps) (h : Hooks) :
  is_Some (refs h !! JS.to_key (_value p h)) -> thrown (geometry_effect ctx p h) = false.
Proof.
  intros [entry Hentry]. unfold geometry_effect, slot. rewrite Hentry.
  destruct entry, (rootRef h); reflexivity.
Qed.

(** A render whose selected value has a control does not throw. *)
Lemma update_rendered_value ctx b rerun (p : SegmentedControlProps) (h : Hooks)
    (item : SegmentedControlItem) :
  item ∈ _data (Props.data p) ->
  _value p h = Some (Item.value item) ->
  thrown (update ctx b rerun p h) = false.
Proof.
  intros Hitem Hv. unfold update. destruct rerun; [|reflexivity].
  apply geometry_effect_own_key.
  rewrite (_value_stored p h (commit b p h)) by apply commit_frame.
  rewrite Hv. simpl.
  destruct (commit_refs b p h (Item.value item)) as [Hrefs _].
  { intros Hempty. rewrite Hempty in Hitem. inversion Hitem. }
  rewrite Hrefs, bool_decide_eq_true_2; [eauto|].
  apply list_elem_of_fmap_2. exact Hitem.
Qed.

(** C5, as amended: with [readOnly] unset, a change event on the input of a
    control of a mounted instance calls [onChange] exactly once, with the
    control's value (and the instance stays mounted); the
    tracked value becomes that value when the component is uncontrolled; when
    it is controlled the tracked value stays the [value] prop, and becomes the
    selected value once the owner passes it back.  A render with a new
    [value] prop calls [onChange] zero times. *)
Theorem selection_reports_once ctx b (s : Instance) (i : nat) (item : SegmentedControlItem) :
  mounted s = true ->
  JS.flag (Props.readOnly (props s)) = false ->
  _data (Props.data (props s)) !! i = Some item ->
  let s' := step ctx b (InputChange i) s in
  (forall f, Props.onChange (props s) = Some f ->
             calls s' = calls s ++ [ {| callee := f; argument := Item.value item |} ])
  /\ (Props.value (props s) = None -> selected s' = Some (Item.value item))
  /\ (forall v, Props.value (props s) = Some v -> selected s' = Some v)
  /\ (forall _props,
        calls (step ctx b (Rerender _props) s') = calls s'
        /\ (forall v, Props.value _props = Some v ->
                      selected (step ctx b (Rerender _props) s') = Some v))
  /\ mounted s' = true.
Proof.
  intros Hlive Hro Hitem s'.
  assert (Hs' : props s' = props s
                /\ calls s' = calls s ++ notify (Props.onChange (props s)) (Item.value item)
                /\ uncontrolledValue (hooks s')
                   = match Props.value (props s) with
                     | Some _ => uncontrolledValue (hooks s)
                     | None => Some (Item.value item)
                     end
                /\ mounted s' = true).
  { unfold s'. rewrite (step_mounted ctx b _ s Hlive). unfold react, settle.
    simpl. rewrite Hitem.
    unfold input_onChange, handleValueChange, useUncontrolled. rewrite Hro.
    destruct (Props.value (props s)) as [v|] eqn:Hv; simpl.
    - rewrite value_unchanged_stored by reflexivity. repeat split.
    - repeat split.
      + destruct (value_changed _ _ _ _); [rewrite update_stored|]; reflexivity.
      + destruct (value_changed _ _ _ _); [|reflexivity].
        rewrite (update_rendered_value ctx b true (props s) _ item); [reflexivity| |].
        * apply (list_elem_of_lookup_2 _ i). exact Hitem.
        * unfold _value, useUncontrolled. rewrite Hv. reflexivity. }
  destruct Hs' as (Hp & Hc & Hu & Hlive').
  split; [intros f Hf; rewrite Hc, Hf; reflexivity|].
  split; [|split; [|split]].
  - intros Hv. unfold selected, _value, useUncontrolled.
    rewrite Hp, Hv, Hu, Hv. reflexivity.
  - intros v Hv. unfold selected, _value, useUncontrolled.
    rewrite Hp, Hv. reflexivity.
  - intros _props. destruct (rerender_silent ctx b _props s') as (Hcalls & _ & Hval).
    split; [assumption|]. apply Hval. exact Hlive'.
  - exact Hlive'.
Qed.

Lemma selection_reports_once_witness :
  let ctx := Sample.ambient ltr env_default in
  let s := mount ctx Sample.browser (Sample.make Sample.abc None None None) in
  calls (step ctx Sample.browser (InputChange 1) s)
    = [ {| callee := Sample.spy; argument := "b" |} ]
  /\ selected (step ctx Sample.browser (InputChange 1) s) = Some "b".
Proof.
  intros ctx s.
  destruct (selection_reports_once ctx Sample.browser s 1 (normalize (EString "b")))
    as (Hcalls & Hfree & _).
  - reflexivity.
  - reflexivity.
  - reflexivity.
  - split; [exact (Hcalls Sample.spy eq_refl) | exact (Hfree eq_refl)].
Defined.

(** C5, as stated, fails for a controlled component: with [value] fixed to
    ["a"], the change event on the input of ["b"] calls [onChange] once and
    the tracked value is still ["a"]. *)
Lemma controlled_selection_keeps_value :
  let ctx := Sample.ambient ltr env_default in
  let s := mount ctx Sample.browser (Sample.make Sample.abc (Some "a") None None) in
  let s' := step ctx Sample.browser (InputChange 1) s in
  mounted s = true
  /\ JS.flag (Props.readOnly (props s)) = false
  /\ _data (Props.data (props s)) !! 1 = Some (normalize (EString "b"))
  /\ calls s' = [ {| callee := Sample.spy; argument := "b" |} ]
  /\ selected s' = Some "a".
Proof. vm_compute. repeat split; reflexivity. Qed.

(** ** The initialization flag *)

Lemma input_onChange_timer p h item :
  initialized (fst (input_onChange p h item)) = initialized h
  /\ timeout (fst (input_onChange p h item)) = timeout h.
Proof.
  unfold input_onChange.
  destruct (JS.flag (Props.readOnly p)); [auto|].
  destruct (handleValueChange p h (Item.value item)) as [stored cs]. auto.
Qed.

(** Only the passing of time touches the timer and the flag. *)
Lemma step_keeps_timer ctx b ev s :
  (forall ms, ev <> Elapse ms) ->
  initialized (hooks (step ctx b ev s)) = initialized (hooks s)
  /\ timeout (hooks (step ctx b ev s)) = timeout (hooks s).
Proof.
  intros Hev. unfold step. destruct (mounted s); [|auto].
  destruct ev as [i|_props|r|ms]; unfold react, settle; simpl.
  - destruct (_data (Props.data (props s)) !! i) as [item|]; [|auto].
    destruct (input_onChange_timer (props s) (hooks s) item) as [Hi Ht].
    destruct (input_onChange (props s) (hooks s) item) as [h' cs]. simpl in *.
    destruct (value_changed _ _ _ _); [|auto].
    destruct (update_frame ctx b true (props s) h') as (_ & Hi' & Ht').
    rewrite Hi', Ht'. auto.
  - destruct (update_frame ctx b (value_changed (props s) (useProps _props) (hooks s) (hooks s))
                (useProps _props) (hooks s)) as (_ & Hi & Ht).
    auto.
  - destruct (update_frame ctx b true (props s) (setContainerRect r (hooks s)))
      as (_ & Hi & Ht).
    auto.
  - destruct (Hev ms). reflexivity.
Qed.

Lemma elapse_timer ctx ms e h :
  timer_state ctx e h ->
  timer_state ctx (e + ms) (useTimeout_elapse (timeout_callback ctx) ms h).
Proof.
  unfold timer_state, useTimeout_elapse, timeout_callback, INITIALIZATION_DELAY.
  intros [Ht Hi]. rewrite Ht.
  destruct (bool_decide (20 <= e)) eqn:He.
  - apply bool_decide_eq_true_1 in He.
    rewrite (bool_decide_eq_true_2 (20 <= e + ms)) by lia.
    auto.
  - apply bool_decide_eq_false_1 in He.
    destruct (bool_decide (20 - e <= ms)) eqn:Hfire.
    + apply bool_decide_eq_true_1 in Hfire.
      rewrite (bool_decide_eq_true_2 (20 <= e + ms)) by lia.
      destruct (getEnv ctx); simpl; auto.
    + apply bool_decide_eq_false_1 in Hfire.
      rewrite (bool_decide_eq_false_2 (20 <= e + ms)) by lia.
      simpl. split; [f_equal; lia|].
      rewrite Hi. reflexivity.
Qed.

Lemma step_timer ctx b ev s e :
  mounted s = true ->
  timer_state ctx e (hooks s) ->
  timer_state ctx (e + elapsed [ev]) (hooks (step ctx b ev s)).
Proof.
  intros Hlive Hstate.
  assert (Hkeep : (forall ms, ev <> Elapse ms) ->
                  elapsed [ev] = 0 ->
                  timer_state ctx (e + elapsed [ev]) (hooks (step ctx b ev s))).
  { intros Hother Hzero.
    destruct (step_keeps_timer ctx b ev s Hother) as [Hi Ht].
    rewrite Hzero, Nat.add_0_r.
    unfold timer_state in *. rewrite Hi, Ht. exact Hstate. }
  destruct ev as [i|_props|r|ms]; try (apply Hkeep; [discriminate|reflexivity]).
  rewrite (step_mounted ctx b _ s Hlive). unfold react, settle.
  simpl. rewrite Nat.add_0_r. apply elapse_timer. exact Hstate.
Qed.

(** An instance that is mounted at the end was mounted all along. *)
Lemma run_mounted ctx b evs s : mounted (run ctx b evs s) = true -> mounted s = true.
Proof.
  destruct (mounted s) eqn:Hs; [reflexivity|].
  rewrite (run_unmounted ctx b evs s Hs), Hs. discriminate.
Qed.

Lemma run_timer ctx b evs s e :
  mounted (run ctx b evs s) = true ->
  timer_state ctx e (hooks s) ->
  timer_state ctx (e + elapsed evs) (hooks (run ctx b evs s)).
Proof.
  revert s e. induction evs as [|ev evs IH]; intros s e Hlive Hstate.
  - simpl. rewrite Nat.add_0_r. exact Hstate.
  - change (run ctx b (ev :: evs) s) with (run ctx b evs (step ctx b ev s)) in *.
    replace (e + elapsed (ev :: evs)) with (e + elapsed [ev] + elapsed evs).
    + apply IH; [exact Hlive|]. apply step_timer; [|exact Hstate].
      apply run_mounted in Hlive.
      destruct (mounted s) eqn:Hs; [reflexivity|].
      rewrite (step_unmounted ctx b ev s Hs), Hs in Hlive. discriminate.
    + destruct ev; simpl; lia.
Qed.

Lemma mount_timer ctx b p : timer_state ctx 0 (hooks (mount ctx b p)).
Proof.
  unfold timer_state, mount, useTimeout_start. simpl.
  split; [reflexivity|].
  match goal with
  | |- initialized (state_of (geometry_effect ctx ?q ?h)) = _ =>
      destruct (geometry_effect_frame ctx q h) as (_ & _ & _ & Hi & _); rewrite Hi
  end.
  match goal with
  | |- initialized (commit b ?q ?h) = _ =>
      destruct (commit_frame b q h) as (_ & _ & Hc & _); rewrite Hc
  end.
  simpl. destruct (getEnv ctx); reflexivity.
Qed.

Lemma elapsed_app evs more : elapsed (evs ++ more) = elapsed evs + elapsed more.
Proof.
  induction evs as [|ev evs IH]; simpl; [reflexivity|].
  destruct ev; rewrite ?IH; lia.
Qed.

Lemma run_app ctx b evs more s :
  run ctx b (evs ++ more) s = run ctx b more (run ctx b evs s).
Proof. unfold run. apply foldl_app. Qed.

(** Nothing ever resets the flag. *)
Lemma step_keeps_initialized ctx b ev s :
  initialized (hooks s) = true -> initialized (hooks (step ctx b ev s)) = true.
Proof.
  intros Hset.
  assert (Hother : (forall ms, ev <> Elapse ms) ->
                   initialized (hooks (step ctx b ev s)) = true).
  { intros Hev. destruct (step_keeps_timer ctx b ev s Hev) as [Hi _].
    rewrite Hi. exact Hset. }
  destruct ev as [i|_props|r|ms]; try (apply Hother; intros ms'; discriminate).
  unfold step. destruct (mounted s); [|exact Hset].
  unfold react, settle, useTimeout_elapse, timeout_callback. simpl.
  destruct (timeout (hooks s)) as [remaining|]; [|exact Hset].
  destruct (bool_decide (remaining <= ms)); [|exact Hset].
  destruct (getEnv ctx); [reflexivity|exact Hset].
Qed.

Lemma run_keeps_initialized ctx b evs s :
  initialized (hooks s) = true -> initialized (hooks (run ctx b evs s)) = true.
Proof.
  revert s. induction evs as [|ev evs IH]; intros s Hset; [exact Hset|].
  change (run ctx b (ev :: evs) s) with (run ctx b evs (step ctx b ev s)).
  apply IH. apply step_keeps_initialized. exact Hset.
Qed.

(** With an entry in [data] the root is rendered, and it carries the
    initialization marker exactly while the flag is unset. *)
Lemma render_marker ctx (p : SegmentedControlProps) (h : Hooks) :
  Props.data p <> [] ->
  exists root, SegmentedControl ctx p h = Some root
               /\ mod_initialization root = negb (initialized h).
Proof.
  intros Hdata. unfold SegmentedControl. simpl.
  destruct (Props.data p) as [|entry rest]; [congruence|].
  simpl. eexists. split; reflexivity.
Qed.

(** C8, as amended: the component starts with [initialized] false, and the
    root of the first render carries the initialization marker.  While the
    instance is mounted: outside the test environment the flag is true
    exactly once the 20 ms of the timer are over, and from then on the root
    of every render is without the marker, the flag staying true whatever
    happens next; under the test environment the flag is never set, so the
    root of every render carries the marker for the whole lifetime. *)
Theorem initialization_flag ctx b (p : SegmentedControlProps) (evs : list Event) :
  let s := run ctx b evs (mount ctx b p) in
  mounted s = true ->
  initialized (hooks (mount ctx b p)) = false
  /\ (Props.data p <> [] ->
      exists root, SegmentedControl ctx p (hooks (mount ctx b p)) = Some root
                   /\ mod_initialization root = true)
  /\ initialized (hooks s)
     = match getEnv ctx with
       | env_default => bool_decide (INITIALIZATION_DELAY <= elapsed evs)
       | env_test => false
       end
  /\ (Props.data (props s) <> [] ->
      exists root, SegmentedControl ctx (props s) (hooks s) = Some root
                   /\ mod_initialization root
                      = match getEnv ctx with
                        | env_default => negb (bool_decide (INITIALIZATION_DELAY <= elapsed evs))
                        | env_test => true
                        end)
  /\ (forall more, initialized (hooks s) = true ->
                   initialized (hooks (run ctx b more s)) = true).
Proof.
  intros s Hlive.
  assert (Hstart : initialized (hooks (mount ctx b p)) = false).
  { destruct (mount_timer ctx b p) as [_ Hi]. rewrite Hi.
    destruct (getEnv ctx); reflexivity. }
  assert (Hflag : initialized (hooks s)
                  = match getEnv ctx with
                    | env_default => bool_decide (INITIALIZATION_DELAY <= elapsed evs)
                    | env_test => false
                    end).
  { apply (run_timer ctx b evs (mount ctx b p) 0 Hlive). apply mount_timer. }
  split; [exact Hstart|]. split; [|split; [exact Hflag|split]].
  - intros Hdata. destruct (render_marker ctx p (hooks (mount ctx b p)) Hdata)
      as (root & Hroot & Hmarker).
    exists root. rewrite Hmarker, Hstart. split; [exact Hroot|reflexivity].
  - intros Hdata. destruct (render_marker ctx (props s) (hooks s) Hdata)
      as (root & Hroot & Hmarker).
    exists root. rewrite Hmarker, Hflag. split; [exact Hroot|].
    destruct (getEnv ctx); reflexivity.
  - intros more. apply run_keeps_initialized.
Qed.

Lemma initialization_flag_witness :
  let ctx := Sample.ambient ltr env_default in
  let p := Sample.make Sample.abc None None None in
  let s := run ctx Sample.browser [Elapse 12; InputChange 2; Elapse 8]
             (mount ctx Sample.browser p) in
  initialized (hooks s) = true
  /\ exists root, SegmentedControl ctx (props s) (hooks s) = Some root
                  /\ mod_initialization root = false.
Proof.
  intros ctx p s.
  destruct (initialization_flag ctx Sample.browser p [Elapse 12; InputChange 2; Elapse 8])
    as (_ & _ & Hflag & Hroot & _).
  - vm_compute. reflexivity.
  - split; [exact Hflag|]. apply Hroot. discriminate.
Defined.

(** C8, as stated, fails under the test environment: the flag is never set,
    so long after the 20 ms the root still carries the initialization marker;
    the suppression is on every render, not on the first paint only, and
    nothing of it is skipped. *)
Lemma marker_stays_under_test :
  let ctx := Sample.ambient ltr env_test in
  let evs := [Elapse 500; Resize Sample.observed; InputChange 1] in
  let s := run ctx Sample.browser evs
             (mount ctx Sample.browser (Sample.make Sample.abc None None None)) in
  getEnv ctx = env_test
  /\ elapsed evs = 500
  /\ mounted s = true
  /\ initialized (hooks s) = false
  /\ mod_initialization <$> SegmentedControl ctx (props s) (hooks s) = Some true.
Proof. vm_compute. repeat split; reflexivity. Qed.

(** ** Worked runs *)

Example finalValue_strings : finalValue Sample.abc = Some "a".
Proof. reflexivity. Qed.

Example finalValue_skips_disabled :
  finalValue [Sample.off "a"; Sample.on "b"; EString "c"] = Some "b".
Proof. reflexivity. Qed.

Example finalValue_empty : finalValue [] = None.
Proof. reflexivity. Qed.

(** A list of strings always has a selected value after mount, hence an
    indicator: the merged value is [null] only for an empty [data], which
    renders nothing at all. *)
Lemma initial_selection_null_iff ctx b (p : SegmentedControlProps) :
  Props.value p = None ->
  Props.defaultValue p = None ->
  (initial_selection ctx b p = None <-> Props.data p = []).
Proof.
  intros Hv Hd. rewrite initial_selection_unfold, Hv, Hd. simpl.
  apply finalValue_null_iff.
Qed.

Example flag_before_delay :
  let ctx := Sample.ambient ltr env_default in
  initialized (hooks (run ctx Sample.browser [Elapse 12; InputChange 2; Elapse 7]
                        (mount ctx Sample.browser (Sample.make Sample.abc None None None))))
  = false.
Proof. vm_compute. reflexivity. Qed.

Example flag_after_delay :
  let ctx := Sample.ambient ltr env_default in
  initialized (hooks (run ctx Sample.browser [Elapse 12; InputChange 2; Elapse 8]
                        (mount ctx Sample.browser (Sample.make Sample.abc None None None))))
  = true.
Proof. vm_compute. reflexivity. Qed.

Example flag_under_test :
  let ctx := Sample.ambient ltr env_test in
  initialized (hooks (run ctx Sample.browser [Elapse 500]
                        (mount ctx Sample.browser (Sample.make Sample.abc None None None))))
  = false.
Proof. vm_compute. reflexivity. Qed.

(** Selecting the second segment once the container is observed moves the
    indicator by one segment; under ['rtl'] the same measurements give the
    negated distance from the right edge. *)
Example indicator_follows_selection :
  let ctx := Sample.ambient ltr env_default in
  activePosition (hooks (run ctx Sample.browser [Resize Sample.observed; InputChange 1]
                           (mount ctx Sample.browser (Sample.make Sample.abc None None None))))
  = {| width := 100%float; height := 28%float; translate := (100%float, 0%float) |}.
Proof. vm_compute. reflexivity. Qed.

Example indicator_follows_selection_rtl :
  let ctx := Sample.ambient rtl env_default in
  activePosition (hooks (run ctx Sample.browser [Resize Sample.observed; InputChange 1]
                           (mount ctx Sample.browser (Sample.make Sample.abc None None None))))
  = {| width := 100%float; height := 28%float; translate := ((-100)%float, 0%float) |}.
Proof. vm_compute. reflexivity. Qed.

(** * Further properties of the component *)

(** ** The rendered controls *)

(** What an output is made of. *)
Lemma render_root ctx (p : SegmentedControlProps) (h : Hooks) (root : RootElement) :
  SegmentedControl ctx p h = Some root ->
  Props.data p <> []
  /\ root_controls root = control ctx p h <$> _data (Props.data p)
  /\ root_indicator root = indicator (_value p h) (activePosition h).
Proof.
  unfold SegmentedControl. simpl.
  destruct (Props.data p) as [|entry rest]; simpl; [discriminate|].
  intros Hroot. injection Hroot as <-. simpl. repeat split. discriminate.
Qed.

Lemma or_flag_truthy (a b : option bool) :
  JS.flag (JS.or_flag a b) = JS.flag a || JS.flag b.
Proof. unfold JS.or_flag. destruct a as [[|]|]; reflexivity. Qed.

(** X1: every entry of [data], disabled or not, is rendered: the output has one
    control per entry, in the order of [data], keyed by the entry's value and
    showing its label. *)
Theorem controls_follow_data ctx (p : SegmentedControlProps) (h : Hooks)
    (root : RootElement) :
  SegmentedControl ctx p h = Some root ->
  length (root_controls root) = length (Props.data p)
  /\ control_key <$> root_controls root = values (Props.data p)
  /\ (forall i entry, Props.data p !! i = Some entry ->
        exists c, root_controls root !! i = Some c
                  /\ control_key c = Item.value (normalize entry)
                  /\ input_value (control_input c) = Item.value (normalize entry)
                  /\ label_children (control_label c) = Item.label (normalize entry)).
Proof.
  intros Hroot. destruct (render_root _ _ _ _ Hroot) as (_ & Hcontrols & _).
  rewrite Hcontrols. unfold values, _data. split; [|split].
  - rewrite !length_fmap. reflexivity.
  - rewrite <- !list_fmap_compose. reflexivity.
  - intros i entry Hentry.
    exists (control ctx p h (normalize entry)).
    rewrite !list_lookup_fmap, Hentry. repeat split.
Qed.

Lemma controls_follow_data_witness :
  let ctx := Sample.ambient ltr env_default in
  let p := Sample.make [Sample.off "a"; EString "b"] None None None in
  let h := hooks (mount ctx Sample.browser p) in
  exists root, SegmentedControl ctx p h = Some root
               /\ control_key <$> root_controls root = ["a"; "b"].
Proof.
  intros ctx p h.
  destruct (SegmentedControl ctx p h) as [root|] eqn:Hroot; [|discriminate Hroot].
  exists root. split; [reflexivity|].
  exact (proj1 (proj2 (controls_follow_data ctx p h root Hroot))).
Defined.

(** ** One checked input *)

Lemma checked_controls ctx (p : SegmentedControlProps) (h : Hooks)
    (items : list SegmentedControlItem) :
  length (checked (control ctx p h <$> items))
  = length (List.filter (is_value (_value p h)) items).
Proof.
  unfold checked. induction items as [|item items IH]; [reflexivity|].
  rewrite fmap_cons. cbn [List.filter].
  change (input_checked (control_input (control ctx p h item)))
    with (is_value (_value p h) item).
  destruct (is_value (_value p h) item); cbn [length]; rewrite IH; reflexivity.
Qed.

Lemma is_value_none v (items : list SegmentedControlItem) :
  (forall item, item ∈ items -> v <> Some (Item.value item)) ->
  List.filter (is_value v) items = [].
Proof.
  induction items as [|item items IH]; intros Hnone; simpl; [reflexivity|].
  unfold is_value at 1.
  rewrite bool_decide_eq_false_2 by (apply Hnone; apply list_elem_of_here).
  apply IH. intros other Hother. apply Hnone. apply list_elem_of_further. exact Hother.
Qed.

Lemma is_value_once v (items : list SegmentedControlItem) :
  NoDup (Item.value <$> items) ->
  length (List.filter (is_value (Some v)) items)
  = if bool_decide (v ∈ Item.value <$> items) then 1 else 0.
Proof.
  induction items as [|item items IH]; intros Hnodup; simpl; [reflexivity|].
  rewrite fmap_cons in Hnodup. apply NoDup_cons in Hnodup as [Hfresh Hnodup].
  specialize (IH Hnodup).
  change (list_fmap SegmentedControlItem string Item.value items)
    with (Item.value <$> items).
  unfold is_value at 1.
  destruct (decide (v = Item.value item)) as [->|Hne].
  - rewrite bool_decide_eq_true_2 by reflexivity. simpl. rewrite IH.
    rewrite (bool_decide_eq_false_2 _ Hfresh).
    rewrite bool_decide_eq_true_2 by apply list_elem_of_here. reflexivity.
  - rewrite bool_decide_eq_false_2 by congruence. rewrite IH.
    apply (f_equal (fun c : bool => if c then 1 else 0)).
    apply bool_decide_ext. rewrite elem_of_cons. tauto.
Qed.

(** X2: with pairwise distinct values in [data] the radio group has at most one
    checked input: exactly one when the merged value is the value of an
    entry, none when it is [null] or the value of no entry. *)
Theorem one_checked_input ctx (p : SegmentedControlProps) (h : Hooks)
    (root : RootElement) :
  SegmentedControl ctx p h = Some root ->
  NoDup (values (Props.data p)) ->
  length (checked (root_controls root))
  = match _value p h with
    | Some v => if bool_decide (v ∈ values (Props.data p)) then 1 else 0
    | None => 0
    end.
Proof.
  intros Hroot Hnodup. destruct (render_root _ _ _ _ Hroot) as (_ & Hcontrols & _).
  rewrite Hcontrols, checked_controls.
  destruct (_value p h) as [v|].
  - apply is_value_once. exact Hnodup.
  - rewrite is_value_none; [reflexivity|]. intros item _. discriminate.
Qed.

Lemma one_checked_input_witness :
  let ctx := Sample.ambient ltr env_default in
  let p := Sample.make Sample.abc (Some "b") None None in
  let h := hooks (mount ctx Sample.browser p) in
  exists root, SegmentedControl ctx p h = Some root
               /\ length (checked (root_controls root)) = 1.
Proof.
  intros ctx p h.
  destruct (SegmentedControl ctx p h) as [root|] eqn:Hroot; [|discriminate Hroot].
  exists root. split; [reflexivity|].
  refine (one_checked_input ctx p h root Hroot _).
  repeat constructor; intros Hin; apply list_elem_of_In in Hin; simpl in Hin;
    intuition discriminate.
Defined.

(** A value that occurs twice in [data] checks both of its inputs. *)
Example two_checked_inputs :
  let ctx := Sample.ambient ltr env_default in
  let p := Sample.make [EString "a"; EString "b"; EString "a"] None None None in
  (checked <$> (root_controls <$> SegmentedControl ctx p (hooks (mount ctx Sample.browser p))))
  = Some [control ctx p (hooks (mount ctx Sample.browser p)) (normalize (EString "a"));
          control ctx p (hooks (mount ctx Sample.browser p)) (normalize (EString "a"))].
Proof. vm_compute. reflexivity. Qed.

(** ** Disabled controls *)

(** X3: an input is disabled exactly when the component or its entry is
    disabled, and [readOnly] plays no part in it; a disabled control can be
    the checked one, but its label is active only when it is checked and not
    disabled. *)
Theorem disabled_controls ctx (p : SegmentedControlProps) (h : Hooks)
    (root : RootElement) (i : nat) (item : SegmentedControlItem) (c : ControlElement) :
  SegmentedControl ctx p h = Some root ->
  _data (Props.data p) !! i = Some item ->
  root_controls root !! i = Some c ->
  JS.flag (input_disabled (control_input c))
  = JS.flag (Props.disabled p) || JS.flag (Item.disabled item)
  /\ label_disabled (control_label c) = input_disabled (control_input c)
  /\ input_checked (control_input c) = is_value (_value p h) item
  /\ control_active c = input_checked (control_input c)
  /\ label_active (control_label c)
     = input_checked (control_input c) && negb (JS.flag (input_disabled (control_input c))).
Proof.
  intros Hroot Hitem Hc. destruct (render_root _ _ _ _ Hroot) as (_ & Hcontrols & _).
  rewrite Hcontrols, list_lookup_fmap, Hitem in Hc. injection Hc as <-.
  simpl. rewrite or_flag_truthy. repeat split.
Qed.

Lemma disabled_controls_witness :
  let ctx := Sample.ambient ltr env_default in
  let p := Sample.make [Sample.off "a"; Sample.off "b"] None None None in
  let h := hooks (mount ctx Sample.browser p) in
  let c := control ctx p h (normalize (Sample.off "a")) in
  input_checked (control_input c) = true
  /\ JS.flag (input_disabled (control_input c)) = true
  /\ label_active (control_label c) = false.
Proof.
  intros ctx p h c.
  destruct (SegmentedControl ctx p h) as [root|] eqn:Hroot; [|discriminate Hroot].
  destruct (disabled_controls ctx p h root 0 (normalize (Sample.off "a")) c Hroot eq_refl)
    as (Hd & _ & Hc & _ & Ha).
  - injection Hroot as <-. reflexivity.
  - split; [exact Hc|]. split; [exact Hd|exact Ha].
Defined.

(** ** Names and identifiers *)

Lemma control_id_inj (uuid : string) : Inj (=) (=) (fun v => uuid +:+ "-" +:+ v).
Proof.
  intros v w Hvw.
  apply (String.app_inj uuid) in Hvw. apply (String.app_inj "-") in Hvw. exact Hvw.
Qed.

(** X4: every label points at its own input ([htmlFor] is the input's [id]), all
    inputs carry the one name of the group, and with pairwise distinct values
    in [data] the identifiers of the inputs are pairwise distinct. *)
Theorem control_identifiers ctx (p : SegmentedControlProps) (h : Hooks)
    (root : RootElement) :
  SegmentedControl ctx p h = Some root ->
  Forall (fun c => label_htmlFor (control_label c) = input_id (control_input c)
                   /\ input_name (control_input c) = useId ctx (Props.name p)
                   /\ input_id (control_input c)
                      = useId ctx (Props.name p) +:+ "-" +:+ control_key c)
         (root_controls root)
  /\ (NoDup (values (Props.data p)) ->
      NoDup ((fun c => input_id (control_input c)) <$> root_controls root)).
Proof.
  intros Hroot. destruct (render_root _ _ _ _ Hroot) as (_ & Hcontrols & _).
  rewrite Hcontrols. split.
  - apply Forall_fmap. apply Forall_forall. intros item _. repeat split.
  - intros Hnodup. rewrite <- list_fmap_compose.
    change ((fun c => input_id (control_input c)) ∘ control ctx p h)
      with ((fun v => useId ctx (Props.name p) +:+ "-" +:+ v) ∘ Item.value).
    rewrite list_fmap_compose.
    apply (@NoDup_fmap_2 _ _ _ (control_id_inj (useId ctx (Props.name p)))).
    exact Hnodup.
Qed.

Lemma control_identifiers_witness :
  let ctx := Sample.ambient ltr env_default in
  let p := Sample.make Sample.abc None None None in
  let h := hooks (mount ctx Sample.browser p) in
  exists root, SegmentedControl ctx p h = Some root
               /\ NoDup ((fun c => input_id (control_input c)) <$> root_controls root).
Proof.
  intros ctx p h.
  destruct (SegmentedControl ctx p h) as [root|] eqn:Hroot; [|discriminate Hroot].
  exists root. split; [reflexivity|].
  refine (proj2 (control_identifiers ctx p h root Hroot) _).
  repeat constructor; intros Hin; apply list_elem_of_In in Hin; simpl in Hin;
    intuition discriminate.
Defined.

(** ** The fallback value *)

(** X5: the fallback value is always the value of an entry of [data]: of an
    enabled one, unless every entry is disabled; it is [null] for the empty
    list only. *)
Theorem finalValue_in_data (data : list DataEntry) :
  match finalValue data with
  | Some v =>
      exists item, item ∈ _data data /\ Item.value item = v
                   /\ (enabled item = true
                       \/ forall other, other ∈ _data data -> enabled other = false)
  | None => data = []
  end.
Proof.
  unfold finalValue, first_enabled.
  destruct (find enabled (_data data)) as [item|] eqn:Hfind; simpl.
  - apply find_some in Hfind as [Hin Hen].
    exists item. rewrite list_elem_of_In. auto.
  - pose proof (find_none _ _ Hfind) as Hall.
    destruct data as [|[s|item] rest]; simpl; [reflexivity| |].
    + specialize (Hall (normalize (EString s)) (or_introl eq_refl)). discriminate Hall.
    + exists item. split; [apply list_elem_of_here|]. split; [reflexivity|].
      right. intros other Hother. apply Hall. apply list_elem_of_In. exact Hother.
Qed.

(** ** The stored size *)

(** X6: whatever is measured, the width and the height that the effect stores
    are never [NaN] and never a negative zero: each is either [0] or a truthy
    number; and neither depends on the direction, the padding or the
    container. *)
Theorem measure_size_guarded d pad rect (element : HTMLLabelElement) :
  PrimFloat.is_nan (width (measure d pad rect element)) = false
  /\ PrimFloat.is_nan (height (measure d pad rect element)) = false
  /\ (width (measure d pad rect element) = 0%float
      \/ JS.truthy (width (measure d pad rect element)) = true)
  /\ (height (measure d pad rect element) = 0%float
      \/ JS.truthy (height (measure d pad rect element)) = true)
  /\ (forall d' pad' rect',
        width (measure d' pad' rect' element) = width (measure d pad rect element)
        /\ height (measure d' pad' rect' element) = height (measure d pad rect element)).
Proof.
  unfold measure. simpl.
  split; [apply or_zero_not_nan|]. split; [apply or_zero_not_nan|].
  split; [|split; [|intros; split; reflexivity]].
  all: unfold JS.or; destruct (JS.truthy _) eqn:Htruthy; auto.
Qed.

(** ** Running the effect again *)


(** ** Geometry of the selected control *)

Lemma finalValue_value (data : list DataEntry) (v : string) :
  finalValue data = Some v -> v ∈ values data.
Proof.
  unfold finalValue, first_enabled, values.
  destruct (find enabled (_data data)) as [item|] eqn:Hfind; simpl.
  - intros Hv. injection Hv as <-. apply find_some in Hfind as [Hin _].
    apply list_elem_of_fmap_2. apply list_elem_of_In. exact Hin.
  - destruct data as [|[s|item] rest]; simpl; try discriminate.
    intros Hv. injection Hv as <-. apply list_elem_of_here.
Qed.

(** The effect after the commit of a render whose selected value has a
    control. *)
Lemma geometry_matched ctx b (p : SegmentedControlProps) (h : Hooks) (v : string) :
  _value p h = Some v ->
  v ∈ values (Props.data p) ->
  geometry_effect ctx p (commit b p h)
  = Done (setActivePosition
            (measure (dir ctx) (rootPadding (root_node b)) (containerRect h)
               (label_node b v))
            (commit b p h)).
Proof.
  intros Hv Hin.
  assert (Hne : Props.data p <> []).
  { intros Hempty. rewrite Hempty in Hin. inversion Hin. }
  destruct (commit_refs b p h v Hne) as [Hrefs Hroot].
  rewrite bool_decide_eq_true_2 in Hrefs by exact Hin.
  destruct (commit_frame b p h) as (Hu & _ & _ & _ & Hrect).
  unfold geometry_effect, slot.
  rewrite (_value_stored p h (commit b p h) Hu), Hv. simpl.
  rewrite Hrefs, Hroot, Hrect. reflexivity.
Qed.


(** X9: in a mounted, uncontrolled component a change event that selects
    another value moves the indicator to the measurements of that value's
    label; the effect does not throw, the instance stays mounted. *)
Theorem selection_moves_indicator ctx b (s : Instance) (i : nat)
    (item : SegmentedControlItem) :
  mounted s = true ->
  JS.flag (Props.readOnly (props s)) = false ->
  Props.value (props s) = None ->
  _data (Props.data (props s)) !! i = Some item ->
  selected s <> Some (Item.value item) ->
  activePosition (hooks (step ctx b (InputChange i) s))
  = measure (dir ctx) (rootPadding (root_node b)) (containerRect (hooks s))
      (label_node b (Item.value item))
  /\ mounted (step ctx b (InputChange i) s) = true.
Proof.
  intros Hlive Hro Hvalue Hitem Hother.
  assert (Hin : Item.value item ∈ values (Props.data (props s))).
  { unfold values. apply list_elem_of_fmap_2.
    apply (list_elem_of_lookup_2 _ i). exact Hitem. }
  rewrite (step_mounted ctx b _ s Hlive). unfold react, settle.
  simpl. rewrite Hitem.
  unfold input_onChange, handleValueChange, useUncontrolled. rewrite Hro, Hvalue.
  cbn [snd fst].
  set (h' := setUncontrolledValue (Some (Item.value item)) (hooks s)).
  assert (Hv' : _value (props s) h' = Some (Item.value item)).
  { unfold _value, useUncontrolled. rewrite Hvalue. reflexivity. }
  unfold value_changed. rewrite Hv'.
  rewrite bool_decide_eq_false_2 by exact Hother. cbn [negb].
  unfold update. rewrite (geometry_matched ctx b (props s) h' _ Hv' Hin).
  split; reflexivity.
Qed.

Lemma selection_moves_indicator_witness :
  let ctx := Sample.ambient ltr env_default in
  let s := mount ctx Sample.browser (Sample.make Sample.abc None None None) in
  activePosition (hooks (step ctx Sample.browser (InputChange 2) s))
  = {| width := 100%float; height := 28%float; translate := (200%float, 0%float) |}.
Proof.
  intros ctx s.
  refine (proj1 (selection_moves_indicator ctx Sample.browser s 2
                   (normalize (EString "c")) eq_refl eq_refl eq_refl eq_refl _)).
  vm_compute. discriminate.
Defined.

(** X10: in a mounted component a report of the resize observer recomputes the
    indicator of the selected control from the reported rectangle; the effect
    does not throw, the instance stays mounted. *)
Theorem resize_recomputes_indicator ctx b (s : Instance) (r : ContainerRect) (v : string) :
  mounted s = true ->
  selected s = Some v ->
  v ∈ values (Props.data (props s)) ->
  activePosition (hooks (step ctx b (Resize r) s))
  = measure (dir ctx) (rootPadding (root_node b)) r (label_node b v)
  /\ containerRect (hooks (step ctx b (Resize r) s)) = r
  /\ mounted (step ctx b (Resize r) s) = true.
Proof.
  intros Hlive Hv Hin. rewrite (step_mounted ctx b _ s Hlive). unfold react, settle.
  simpl. unfold update.
  assert (Hv' : _value (props s) (setContainerRect r (hooks s)) = Some v) by exact Hv.
  rewrite (geometry_matched ctx b (props s) _ v Hv' Hin). simpl.
  split; [reflexivity|]. split; [apply commit_frame|reflexivity].
Qed.

Lemma resize_recomputes_indicator_witness :
  let ctx := Sample.ambient rtl env_default in
  let s := mount ctx Sample.browser (Sample.make Sample.abc None None None) in
  activePosition (hooks (step ctx Sample.browser (Resize Sample.observed) s))
  = {| width := 100%float; height := 28%float; translate := ((-200)%float, 0%float) |}.
Proof.
  intros ctx s.
  refine (proj1 (resize_recomputes_indicator ctx Sample.browser s Sample.observed "a"
                   eq_refl eq_refl _)).
  apply list_elem_of_here.
Defined.

(** ** What the owner is told *)

Lemma input_onChange_calls (p : SegmentedControlProps) (h : Hooks)
    (item : SegmentedControlItem) :
  Forall (fun c => argument c = Item.value item /\ Props.onChange p = Some (callee c))
         (snd (input_onChange p h item))
  /\ length (snd (input_onChange p h item)) <= 1.
Proof.
  unfold input_onChange.
  destruct (JS.flag (Props.readOnly p)); simpl; [split; [constructor|lia]|].
  unfold handleValueChange, useUncontrolled, notify.
  destruct (Props.value p), (Props.onChange p); simpl;
    (split; [repeat constructor|lia]).
Qed.

Lemma step_calls ctx b (ev : Event) (s : Instance) :
  is_rerender ev = false ->
  props (step ctx b ev s) = props s
  /\ exists new, calls (step ctx b ev s) = calls s ++ new
                 /\ Forall (fun c => argument c ∈ values (Props.data (props s))
                                     /\ Props.onChange (props s) = Some (callee c)) new.
Proof.
  intros Hev. unfold step. destruct (mounted s).
  2:{ split; [reflexivity|]. exists []. rewrite app_nil_r. split; [reflexivity|constructor]. }
  destruct ev as [i|_props|r|ms]; unfold react, settle; simpl in *; try discriminate.
  - destruct (_data (Props.data (props s)) !! i) as [item|] eqn:Hitem.
    + destruct (input_onChange_calls (props s) (hooks s) item) as [Hcalls _].
      destruct (input_onChange (props s) (hooks s) item) as [h' cs]. simpl in *.
      split; [reflexivity|]. exists cs. split; [reflexivity|].
      eapply Forall_impl; [exact Hcalls|].
      intros c [-> Hcallee]. split; [|exact Hcallee].
      unfold values. apply list_elem_of_fmap_2.
      apply (list_elem_of_lookup_2 _ i). exact Hitem.
    + split; [reflexivity|]. exists []. rewrite app_nil_r. split; [reflexivity|constructor].
  - split; [reflexivity|]. exists []. rewrite app_nil_r. split; [reflexivity|constructor].
  - split; [reflexivity|]. exists []. rewrite app_nil_r. split; [reflexivity|constructor].
Qed.

(** X11: as long as the owner passes no new props, every call the component makes
    is a call of the [onChange] prop with the value of an entry of [data]:
    the owner is never told a value that is not in [data], and calls already
    made are never withdrawn. *)
Theorem calls_report_data ctx b (evs : list Event) (s : Instance) :
  Forall (fun ev => is_rerender ev = false) evs ->
  exists new, calls (run ctx b evs s) = calls s ++ new
              /\ Forall (fun c => argument c ∈ values (Props.data (props s))
                                  /\ Props.onChange (props s) = Some (callee c)) new.
Proof.
  intros Hevs. revert s.
  induction Hevs as [|ev evs Hev _ IH]; intros s.
  - exists []. rewrite app_nil_r. split; [reflexivity|constructor].
  - change (run ctx b (ev :: evs) s) with (run ctx b evs (step ctx b ev s)).
    destruct (step_calls ctx b ev s Hev) as (Hprops & first & Hfirst & Hok).
    destruct (IH (step ctx b ev s)) as (rest & Hrest & Hok').
    exists (first ++ rest). rewrite Hrest, Hfirst, app_assoc. split; [reflexivity|].
    apply Forall_app. split; [exact Hok|]. rewrite Hprops in Hok'. exact Hok'.
Qed.

Lemma calls_report_data_witness :
  let ctx := Sample.ambient ltr env_default in
  let s := mount ctx Sample.browser (Sample.make Sample.abc None None None) in
  let evs := [InputChange 1; InputChange 5; Elapse 30; InputChange 2] in
  exists new, calls (run ctx Sample.browser evs s) = [] ++ new
              /\ Forall (fun c => argument c ∈ ["a"; "b"; "c"]
                                  /\ Some Sample.spy = Some (callee c)) new.
Proof.
  intros ctx s evs.
  apply (calls_report_data ctx Sample.browser evs s).
  repeat constructor.
Defined.

(** ** The selected value stays in [data] *)

Lemma step_selected ctx b (ev : Event) (s : Instance) :
  is_rerender ev = false ->
  (forall v, selected s = Some v -> v ∈ values (Props.data (props s))) ->
  props (step ctx b ev s) = props s
  /\ (forall v, selected (step ctx b ev s) = Some v -> v ∈ values (Props.data (props s)))
  /\ (selected (step ctx b ev s) = None -> selected s = None).
Proof.
  intros Hev Hinv.
  assert (Hsame : forall s', props s' = props s ->
                    uncontrolledValue (hooks s') = uncontrolledValue (hooks s) ->
                    props s' = props s
                    /\ (forall v, selected s' = Some v -> v ∈ values (Props.data (props s)))
                    /\ (selected s' = None -> selected s = None)).
  { intros s' Hp Hu.
    assert (Hsel : selected s' = selected s).
    { unfold selected. rewrite Hp. apply _value_stored. exact Hu. }
    rewrite Hsel. auto. }
  unfold step. destruct (mounted s); [|apply Hsame; reflexivity].
  destruct ev as [i|_props|r|ms]; try discriminate; unfold react, settle.
  - simpl. destruct (_data (Props.data (props s)) !! i) as [item|] eqn:Hitem; [|auto].
    unfold input_onChange.
    destruct (JS.flag (Props.readOnly (props s))).
    + rewrite value_unchanged. apply Hsame; reflexivity.
    + unfold handleValueChange, useUncontrolled.
      destruct (Props.value (props s)) as [v|] eqn:Hvalue; cbn [fst snd].
      * apply Hsame; [reflexivity|]. simpl.
        destruct (value_changed _ _ _ _); [rewrite update_stored|]; reflexivity.
      * split; [reflexivity|].
        assert (Hsel : forall h', uncontrolledValue h' = Some (Item.value item) ->
                                  _value (props s) h' = Some (Item.value item)).
        { intros h' Hh'. unfold _value, useUncontrolled. rewrite Hvalue, Hh'. reflexivity. }
        unfold selected. simpl.
        rewrite Hsel.
        2:{ destruct (value_changed _ _ _ _); [rewrite update_stored|]; reflexivity. }
        split; [|discriminate].
        intros v Hv. injection Hv as <-.
        unfold values. apply list_elem_of_fmap_2.
        apply (list_elem_of_lookup_2 _ i). exact Hitem.
  - apply Hsame; [reflexivity|]. simpl. rewrite update_stored. reflexivity.
  - apply Hsame; [reflexivity|]. simpl. apply useTimeout_elapse_stored.
Qed.

(** X12: without [value] and [defaultValue], and as long as the owner passes no
    new props, the selected value is at every moment the value of an entry of
    [data]; it is [null] only when [data] is empty. *)
Theorem selected_value_in_data ctx b (p : SegmentedControlProps) (evs : list Event) :
  Props.value p = None ->
  Props.defaultValue p = None ->
  Forall (fun ev => is_rerender ev = false) evs ->
  match selected (run ctx b evs (mount ctx b p)) with
  | Some v => v ∈ values (Props.data p)
  | None => Props.data p = []
  end.
Proof.
  intros Hvalue Hdefault Hevs.
  assert (Hstart : forall v, selected (mount ctx b p) = Some v -> v ∈ values (Props.data p)).
  { intros v. change (selected (mount ctx b p)) with (initial_selection ctx b p).
    rewrite initial_selection_unfold, Hvalue, Hdefault. simpl. apply finalValue_value. }
  assert (Hrun : forall s, Props.data (props s) = Props.data p ->
                   (forall v, selected s = Some v -> v ∈ values (Props.data p)) ->
                   (forall v, selected (run ctx b evs s) = Some v -> v ∈ values (Props.data p))
                   /\ (selected (run ctx b evs s) = None -> selected s = None)).
  { induction Hevs as [|ev evs Hev _ IH]; intros s Hdata Hinv; [auto|].
    change (run ctx b (ev :: evs) s) with (run ctx b evs (step ctx b ev s)).
    destruct (step_selected ctx b ev s Hev) as (Hp & Hin & Hnone).
    { rewrite Hdata. exact Hinv. }
    rewrite Hdata in Hin.
    destruct (IH (step ctx b ev s)) as [Hin' Hnone']; [congruence|exact Hin|].
    split; [exact Hin'|]. intros Hend. apply Hnone, Hnone', Hend. }
  destruct (Hrun (mount ctx b p) eq_refl Hstart) as [Hin Hnone].
  destruct (selected (run ctx b evs (mount ctx b p))) as [v|].
  - apply Hin. reflexivity.
  - apply (initial_selection_null_iff ctx b p Hvalue Hdefault). apply Hnone. reflexivity.
Qed.

Lemma selected_value_in_data_witness :
  let ctx := Sample.ambient ltr env_default in
  let p := Sample.make [Sample.off "a"; Sample.on "b"; EString "c"] None None None in
  let evs := [InputChange 2; Resize Sample.observed; InputChange 0] in
  match selected (run ctx Sample.browser evs (mount ctx Sample.browser p)) with
  | Some v => v ∈ values (Props.data p)
  | None => Props.data p = []
  end.
Proof.
  intros ctx p evs.
  apply (selected_value_in_data ctx Sample.browser p evs);
    [reflexivity | reflexivity | repeat constructor].
Defined.

(** ** The refs table *)


(** ** Style variables *)

(** X14: the root gets a colour or a shadow, never both and never neither:
    for a [color] that is neither missing nor empty the colour variable is
    the theme colour and the shadow variable is unset, otherwise the colour
    variable is unset and the shadow variable is the theme shadow.  The
    label's colour variable is the contrast colour for every [color] that is
    not [undefined], the empty string included.  The transition duration is
    passed on whenever it is given, 0 included, and so is the radius. *)
Theorem color_or_shadow (Theme : Type) (getRadius : string -> string)
    (getThemeColor : string -> Theme -> string)
    (getSize : option string -> string -> option string)
    (getFontSize : option string -> option string)
    (getContrastColor : string -> Theme -> option bool -> string)
    (number_to_string : JS.number -> string)
    (theme : Theme) (p : SegmentedControlProps) :
  let vars := varsResolver Theme getRadius getThemeColor getSize getFontSize
                number_to_string theme p in
  let label := label_color Theme getContrastColor theme p in
  match Props.color p with
  | Some color =>
      label = Some (getContrastColor color theme (Props.autoContrast p))
      /\ if bool_decide (color = "")
         then sc_color vars = None /\ sc_shadow vars = Some "var(--mantine-shadow-xs)"
         else sc_color vars = Some (getThemeColor color theme) /\ sc_shadow vars = None
  | None =>
      label = None
      /\ sc_color vars = None /\ sc_shadow vars = Some "var(--mantine-shadow-xs)"
  end
  /\ (is_Some (sc_color vars) <-> sc_shadow vars = None)
  /\ (sc_color vars = None <-> sc_shadow vars = Some "var(--mantine-shadow-xs)")
  /\ sc_transition_duration vars
     = (fun d => number_to_string d +:+ "ms") <$> Props.transitionDuration p
  /\ sc_radius vars = getRadius <$> Props.radius p
  /\ sc_transition_timing_function vars = Props.transitionTimingFunction p
  /\ sc_padding vars = getSize (Props.size p) "sc-padding"
  /\ sc_font_size vars = getFontSize (Props.size p).
Proof.
  unfold varsResolver, label_color. simpl.
  destruct (Props.color p) as [color|];
    [destruct (decide (color = "")) as [->|Hcolor];
       [|simpl; rewrite (bool_decide_eq_false_2 _ Hcolor)]|];
    destruct (Props.transitionDuration p), (Props.radius p); simpl;
    repeat split; intros;
    repeat match goal with
           | H : is_Some None |- _ => destruct H as [? H]; discriminate H
           | H : _ /\ _ |- _ => destruct H
           end;
    try discriminate; try congruence; eauto.
Qed.

(** An empty [color] and a duration of 0: the root keeps the shadow, the
    label gets a contrast colour, the duration is passed on. *)
Example empty_color_zero_duration :
  let p := {| Props.data := Sample.abc; Props.value := None; Props.defaultValue := None;
              Props.onChange := None; Props.disabled := None; Props.name := None;
              Props.fullWidth := None; Props.color := Some ""; Props.size := None;
              Props.radius := None; Props.transitionDuration := Some 0%float;
              Props.transitionTimingFunction := None; Props.orientation := None;
              Props.readOnly := None; Props.autoContrast := None;
              Props.withItemsBorders := None; Props.variant := None |} in
  let vars := varsResolver unit (fun r => r) (fun c _ => c) (fun _ _ => None)
                (fun _ => None) (fun _ => "0") tt p in
  sc_color vars = None
  /\ sc_shadow vars = Some "var(--mantine-shadow-xs)"
  /\ sc_transition_duration vars = Some "0ms"
  /\ label_color unit (fun _ _ _ => "contrast") tt p = Some "contrast".
Proof. vm_compute. repeat split; reflexivity. Qed.

(** ** Strings are shorthand *)

Lemma as_records_data (data : list DataEntry) : _data (as_records data) = _data data.
Proof.
  unfold as_records, _data. rewrite <- list_fmap_compose.
  induction data as [|entry data IH]; simpl; [reflexivity|].
  f_equal. exact IH.
Qed.

Lemma as_records_finalValue (data : list DataEntry) :
  finalValue (as_records data) = finalValue data.
Proof.
  unfold finalValue, first_enabled. rewrite as_records_data.
  destruct data as [|[s|item] rest]; reflexivity.
Qed.

(** X15: a string in [data] is shorthand for the record with that label and
    value: writing the records out changes neither the normalized list, nor
    the fallback value (although that one reads the first entry before
    normalization), nor the output, nor the hook state after mount. *)
Theorem strings_are_shorthand ctx b (p : SegmentedControlProps) (h : Hooks) :
  let p' := with_data (as_records (Props.data p)) p in
  _data (Props.data p') = _data (Props.data p)
  /\ finalValue (Props.data p') = finalValue (Props.data p)
  /\ SegmentedControl ctx p' h = SegmentedControl ctx p h
  /\ hooks (mount ctx b p') = hooks (mount ctx b p).
Proof.
  simpl. split; [apply as_records_data|]. split; [apply as_records_finalValue|].
  split.
  - unfold SegmentedControl. simpl. rewrite as_records_data.
    unfold as_records, _data. rewrite !length_fmap. reflexivity.
  - unfold mount. simpl. rewrite as_records_finalValue.
    unfold commit. simpl. rewrite as_records_data.
    destruct (Props.data p) as [|entry rest]; reflexivity.
Qed.
